(** * LS-8 emulator (ls8/cpu.py): a shallow embedding and its properties

    The emulator is a Python class [CPU] whose methods mutate the fields of
    one object and signal every fault, and the HLT instruction, by raising an
    exception.  The embedding keeps that shape:

    - the object is a record [CPU], one field per attribute;
    - a method is a function [CPU -> CPU * result A]: the state reached when
      the method returns or raises, and the value returned or the exception
      raised (mutations done before a raise are kept, as in Python);
    - memory cells and registers hold Python numbers: [int] (unbounded, [Z])
      or [float] (binary64, produced by the DIV instruction);
    - list subscripts follow Python (negative subscripts count from the end,
      anything else out of range raises IndexError). *)

From Stdlib Require Import ZArith Lia Bool String Ascii.
From Stdlib Require Import Floats.SpecFloat.
From stdpp Require Import base option list.

Local Open Scope Z_scope.

(** ** Python values and exceptions *)

Inductive value : Type :=
  | VInt (z : Z)
  | VFloat (f : spec_float).

Inductive exn : Type :=
  | IndexError
  | TypeError
  | KeyError (key : value)
  | ZeroDivisionError
  | OverflowError
  | Exception_ (msg : string)
  | SystemExit.

Inductive result (A : Type) : Type :=
  | Ok (a : A)
  | Raise (e : exn).
Arguments Ok {A} a.
Arguments Raise {A} e.

(** ** The part of the Python runtime the emulator relies on *)

Module Py.

(** binary64: 53 bits of precision, exponents below 1024. *)
Definition prec : Z := 53.
Definition emax : Z := 1024.

(** [float(z)] for an int [z]: rounded to nearest even, OverflowError when
    the rounded value is not finite. *)
Definition to_float (z : Z) : result spec_float :=
  match binary_normalize prec emax z 0 false with
  | S754_infinity _ => Raise OverflowError
  | f => Ok f
  end.

(** Conversion of an operand of a float operation. *)
Definition as_double (v : value) : result spec_float :=
  match v with
  | VInt z => to_float z
  | VFloat f => Ok f
  end.

Definition float_is_zero (f : spec_float) : bool :=
  match f with
  | S754_zero _ => true
  | _ => false
  end.

(** [v == 0] *)
Definition is_zero (v : value) : bool :=
  match v with
  | VInt z => z =? 0
  | VFloat f => float_is_zero f
  end.

(** A float operation on mixed operands: both operands are converted, left
    one first, then the operation is applied. *)
Definition float_binop (op : spec_float -> spec_float -> result spec_float)
    (x y : value) : result value :=
  match as_double x with
  | Raise e => Raise e
  | Ok a =>
      match as_double y with
      | Raise e => Raise e
      | Ok b =>
          match op a b with
          | Raise e => Raise e
          | Ok c => Ok (VFloat c)
          end
      end
  end.

(** [x + y], [x - y], [x * y] *)
Definition add (x y : value) : result value :=
  match x, y with
  | VInt a, VInt b => Ok (VInt (a + b))
  | _, _ => float_binop (fun a b => Ok (SFadd prec emax a b)) x y
  end.

Definition sub (x y : value) : result value :=
  match x, y with
  | VInt a, VInt b => Ok (VInt (a - b))
  | _, _ => float_binop (fun a b => Ok (SFsub prec emax a b)) x y
  end.

Definition mul (x y : value) : result value :=
  match x, y with
  | VInt a, VInt b => Ok (VInt (a * b))
  | _, _ => float_binop (fun a b => Ok (SFmul prec emax a b)) x y
  end.

(** [a / b] for two ints: the correctly rounded quotient, as a float. *)
Definition int_truediv (a b : Z) : result spec_float :=
  if b =? 0 then Raise ZeroDivisionError
  else
    let negate := xorb (a <? 0) (b <? 0) in
    if a =? 0 then Ok (S754_zero negate)
    else
      let '(q, e, l) :=
        SFdiv_core_binary prec emax (Z.abs a) 0 (Z.abs b) 0 in
      match binary_round_aux prec emax negate q e l with
      | S754_infinity _ => Raise OverflowError
      | f => Ok f
      end.

(** [a / b] for floats: the divisor is tested after both conversions. *)
Definition float_div (a b : spec_float) : result spec_float :=
  if float_is_zero b then Raise ZeroDivisionError
  else Ok (SFdiv prec emax a b).

(** [x / y] (true division) *)
Definition truediv (x y : value) : result value :=
  match x, y with
  | VInt a, VInt b =>
      match int_truediv a b with
      | Raise e => Raise e
      | Ok f => Ok (VFloat f)
      end
  | _, _ => float_binop float_div x y
  end.

(** [v == k] for an int constant [k] below 2^53 (which converts to a float
    exactly): a float equals [k] when it is the float of [k]. *)
Definition eq_int (v : value) (k : Z) : bool :=
  match v with
  | VInt z => z =? k
  | VFloat f =>
      match to_float k with
      | Ok g => SFeqb f g
      | Raise _ => false
      end
  end.

(** [v >> n] for a literal [n >= 0]: floats have no shift. *)
Definition rshift (v : value) (n : Z) : result Z :=
  match v with
  | VInt z => Ok (Z.shiftr z n)
  | VFloat _ => Raise TypeError
  end.

(** The argument of a [%X] conversion must be an int. *)
Definition hex_arg (v : value) : result Z :=
  match v with
  | VInt z => Ok z
  | VFloat _ => Raise TypeError
  end.

(** A value used as a list subscript must be an int. *)
Definition subscript (v : value) : result Z :=
  match v with
  | VInt z => Ok z
  | VFloat _ => Raise TypeError
  end.

(** The position a subscript [i] denotes in a list of [len] items. *)
Definition index_of (len : nat) (i : Z) : option nat :=
  if (0 <=? i) && (i <? Z.of_nat len) then Some (Z.to_nat i)
  else if (- Z.of_nat len <=? i) && (i <? 0) then Some (Z.to_nat (Z.of_nat len + i))
  else None.

(** [l[i]] *)
Definition getitem {A} (l : list A) (i : Z) : result A :=
  match index_of (length l) i with
  | None => Raise IndexError
  | Some n =>
      match l !! n with
      | Some x => Ok x
      | None => Raise IndexError
      end
  end.

(** [l[i] = x] *)
Definition setitem {A} (l : list A) (i : Z) (x : A) : result (list A) :=
  match index_of (length l) i with
  | None => Raise IndexError
  | Some n => Ok (<[n := x]> l)
  end.

End Py.

(** ** Instruction opcodes *)

Definition HLT : Z := 0x01.   (* 0b00000001 *)
Definition LDI : Z := 0x82.   (* 0b10000010 *)
Definition PRN : Z := 0x47.   (* 0b01000111 *)
Definition ADD : Z := 0xA0.   (* 0b10100000 *)
Definition SUB : Z := 0xA1.   (* 0b10100001 *)
Definition MUL : Z := 0xA2.   (* 0b10100010 *)
Definition DIV : Z := 0xA3.   (* 0b10100011 *)
Definition PUSH : Z := 0x45.   (* 0b01000101 *)
Definition POP : Z := 0x46.   (* 0b01000110 *)

(** ** The CPU object *)

(** What one call of [print] writes on the standard output. *)
Inductive out_item : Type :=
  | OutTrace (pc b0 b1 b2 : Z)   (* "TRACE: %02X | %02X %02X %02X |", no newline *)
  | OutReg (r : Z)               (* " %02X", no newline *)
  | OutNewline                   (* print() *)
  | OutValue (v : value).        (* print(value) *)

Record CPU : Type := mkCPU {
  ram : list value;        (* self.ram: 256 cells *)
  reg : list value;        (* self.reg: 8 registers *)
  pc : Z;                  (* self.pc *)
  ir : option value;       (* self.ir, None until the first fetch *)
  mar : Z;                 (* self.mar *)
  mdr : option value;      (* self.mdr, None until the first access *)
  sp : Z;                  (* self.sp *)
  stdout : list out_item   (* what has been printed so far, oldest first *)
}.

Definition set_ram (x : list value) (s : CPU) : CPU :=
  mkCPU x (reg s) (pc s) (ir s) (mar s) (mdr s) (sp s) (stdout s).
Definition set_reg (x : list value) (s : CPU) : CPU :=
  mkCPU (ram s) x (pc s) (ir s) (mar s) (mdr s) (sp s) (stdout s).
Definition set_pc (x : Z) (s : CPU) : CPU :=
  mkCPU (ram s) (reg s) x (ir s) (mar s) (mdr s) (sp s) (stdout s).
Definition set_ir (x : option value) (s : CPU) : CPU :=
  mkCPU (ram s) (reg s) (pc s) x (mar s) (mdr s) (sp s) (stdout s).
Definition set_mar (x : Z) (s : CPU) : CPU :=
  mkCPU (ram s) (reg s) (pc s) (ir s) x (mdr s) (sp s) (stdout s).
Definition set_mdr (x : option value) (s : CPU) : CPU :=
  mkCPU (ram s) (reg s) (pc s) (ir s) (mar s) x (sp s) (stdout s).
Definition set_sp (x : Z) (s : CPU) : CPU :=
  mkCPU (ram s) (reg s) (pc s) (ir s) (mar s) (mdr s) x (stdout s).
Definition set_stdout (x : list out_item) (s : CPU) : CPU :=
  mkCPU (ram s) (reg s) (pc s) (ir s) (mar s) (mdr s) (sp s) x.

(** [CPU.__init__]: zeroed memory and registers, R7 and SP at 0xF3. *)
Definition init : CPU :=
  let r := <[7%nat := VInt 0xF3]> (replicate 8 (VInt 0)) in
  {| ram := replicate 256 (VInt 0);
     reg := r;
     pc := 0;
     ir := None;
     mar := 0;
     mdr := None;
     sp := 0xF3;
     stdout := [] |}.

(** ** Methods as state transformers that may raise *)

Definition M (A : Type) : Type := CPU -> CPU * result A.

Definition ret {A} (a : A) : M A := fun s => (s, Ok a).
Definition raise {A} (e : exn) : M A := fun s => (s, Raise e).
Definition bind {A B} (m : M A) (k : A -> M B) : M B :=
  fun s =>
    match m s with
    | (s', Ok a) => k a s'
    | (s', Raise e) => (s', Raise e)
    end.
(** The value of an expression that reads the object. *)
Definition gets {A} (f : CPU -> A) : M A := fun s => (s, Ok (f s)).
(** An assignment to an attribute. *)
Definition modify (f : CPU -> CPU) : M unit := fun s => (f s, Ok tt).
(** A runtime operation that may raise. *)
Definition lift {A} (r : result A) : M A := fun s => (s, r).
(** [print(...)] *)
Definition print (o : out_item) : M unit :=
  modify (fun s => set_stdout (stdout s ++ [o]) s).

Declare Scope cpu_scope.
Delimit Scope cpu_scope with cpu.
Notation "x <- m ;; k" := (bind m (fun x => k))
  (at level 100, m at next level, right associativity) : cpu_scope.
Notation "m ;; k" := (bind m (fun _ => k))
  (at level 100, right associativity) : cpu_scope.
Local Open Scope cpu_scope.

(** [for x in xs: body(x)] *)
Fixpoint for_each {A} (xs : list A) (body : A -> M unit) : M unit :=
  match xs with
  | [] => ret tt
  | x :: xs' => body x ;; for_each xs' body
  end.

(** [self.reg[r]] and [self.reg[r] = v], [r] being a value read from memory. *)
Definition reg_get (r : value) : M value :=
  i <- lift (Py.subscript r) ;;
  regs <- gets reg ;;
  lift (Py.getitem regs i).

Definition reg_set (r : value) (v : value) : M unit :=
  i <- lift (Py.subscript r) ;;
  regs <- gets reg ;;
  regs' <- lift (Py.setitem regs i v) ;;
  modify (set_reg regs').

(** [alu]: [self.reg[reg_a] op= self.reg[reg_b]] reads the target, then the
    right-hand side, applies the operator and stores the result. *)
Definition aug_assign (op : value -> value -> result value)
    (reg_a reg_b : value) : M unit :=
  x <- reg_get reg_a ;;
  y <- reg_get reg_b ;;
  z <- lift (op x y) ;;
  reg_set reg_a z.

Definition alu (op : value) (reg_a reg_b : value) : M unit :=
  if Py.eq_int op ADD then aug_assign Py.add reg_a reg_b
  else if Py.eq_int op SUB then aug_assign Py.sub reg_a reg_b
  else if Py.eq_int op MUL then aug_assign Py.mul reg_a reg_b
  else if Py.eq_int op DIV then aug_assign Py.truediv reg_a reg_b
  else raise (Exception_ "Unsupported ALU operation").

(** [ram_read] *)
Definition ram_read (address : Z) : M value :=
  modify (set_mar address) ;;
  cells <- gets ram ;;
  a <- gets mar ;;
  v <- lift (Py.getitem cells a) ;;
  modify (set_mdr (Some v)) ;;
  ret v.

(** [ram_write] *)
Definition ram_write (address : Z) (v : value) : M unit :=
  modify (set_mar address) ;;
  modify (set_mdr (Some v)) ;;
  cells <- gets ram ;;
  a <- gets mar ;;
  cells' <- lift (Py.setitem cells a v) ;;
  modify (set_ram cells').

(** [trace]: the four format arguments are evaluated (three memory reads),
    the line is formatted and printed, then the registers one by one. *)
Definition trace : M unit :=
  p <- gets pc ;;
  b0 <- ram_read p ;;
  p1 <- gets pc ;;
  b1 <- ram_read (p1 + 1) ;;
  p2 <- gets pc ;;
  b2 <- ram_read (p2 + 2) ;;
  x0 <- lift (Py.hex_arg b0) ;;
  x1 <- lift (Py.hex_arg b1) ;;
  x2 <- lift (Py.hex_arg b2) ;;
  print (OutTrace p x0 x1 x2) ;;
  for_each (seqZ 0 8) (fun i =>
    regs <- gets reg ;;
    r <- lift (Py.getitem regs i) ;;
    x <- lift (Py.hex_arg r) ;;
    print (OutReg x)) ;;
  print OutNewline.

(** [handle_hlt]: [sys.exit()] raises SystemExit. *)
Definition handle_hlt : M unit := raise SystemExit.

Definition handle_ldi : M unit :=
  p <- gets pc ;;
  register <- ram_read (p + 1) ;;
  p' <- gets pc ;;
  v <- ram_read (p' + 2) ;;
  reg_set register v.

Definition handle_prn : M unit :=
  p <- gets pc ;;
  register <- ram_read (p + 1) ;;
  v <- reg_get register ;;
  print (OutValue v).

Definition handle_push : M unit :=
  modify (fun s => set_sp (sp s - 1) s) ;;
  p <- gets pc ;;
  register <- ram_read (p + 1) ;;
  v <- reg_get register ;;
  a <- gets sp ;;
  ram_write a v.

Definition handle_pop : M unit :=
  a <- gets sp ;;
  v <- ram_read a ;;
  p <- gets pc ;;
  register <- ram_read (p + 1) ;;
  reg_set register v ;;
  modify (fun s => set_sp (sp s + 1) s).

(** The branch table set up by [__init__] and never changed afterwards: a
    dictionary from opcodes to bound methods. *)
Definition branchtable : list (Z * M unit) :=
  [ (HLT, handle_hlt);
    (LDI, handle_ldi);
    (PRN, handle_prn);
    (PUSH, handle_push);
    (POP, handle_pop) ].

(** [d[k]]: the first binding of [k], KeyError when there is none. *)
Fixpoint dict_get {A} (d : list (Z * A)) (k : value) : result A :=
  match d with
  | [] => Raise (KeyError k)
  | (k', x) :: d' => if Py.eq_int k k' then Ok x else dict_get d' k
  end.

(** One iteration of the [while running:] loop of [run]; [self.ir] holds the
    instruction just fetched when it is passed to [alu] or looked up. *)
Definition cycle : M unit :=
  p <- gets pc ;;
  instruction <- ram_read p ;;
  modify (set_ir (Some instruction)) ;;
  num_operands <- lift (Py.rshift instruction 6) ;;
  p1 <- gets pc ;;
  operand_a <- ram_read (p1 + 1) ;;
  p2 <- gets pc ;;
  operand_b <- ram_read (p2 + 2) ;;
  shifted <- lift (Py.rshift instruction 5) ;;
  let is_alu_operation := Z.land shifted 1 in
  (if negb (is_alu_operation =? 0) then
     alu instruction operand_a operand_b
   else
     trace ;;
     handler <- lift (dict_get branchtable instruction) ;;
     handler) ;;
  modify (fun s => set_pc (pc s + (num_operands + 1)) s).

(** [run]: the loop leaves only through an exception ([running] is never
    reset); [None] says the loop is still running after [fuel] iterations. *)
Fixpoint run (fuel : nat) (s : CPU) : CPU * option exn :=
  match fuel with
  | O => (s, None)
  | S fuel' =>
      match cycle s with
      | (s', Ok _) => run fuel' s'
      | (s', Raise e) => (s', Some e)
      end
  end.

(** [load], after parsing: every instruction line of the file yields one int,
    stored at [self.mar], which is then incremented. *)
Definition load (image : list Z) : M unit :=
  for_each image (fun b =>
    cells <- gets ram ;;
    a <- gets mar ;;
    cells' <- lift (Py.setitem cells a (VInt b)) ;;
    modify (set_ram cells') ;;
    modify (fun s => set_mar (mar s + 1) s)).

(** The machine after [CPU()] and [load()] of a program image. *)
Definition boot (image : list Z) : CPU := fst (load image init).

(** ** Notions used in the statements *)

(** The shape [__init__] gives the object: 256 memory cells, 8 registers.
    No method resizes either list. *)
Definition wf (s : CPU) : Prop :=
  length (ram s) = 256%nat /\ length (reg s) = 8%nat.

(** A method leaves an observation [f] of the object as it found it, whether
    it returns or raises. *)
Definition keeps {A B} (f : CPU -> B) (m : M A) : Prop :=
  forall s, f (fst (m s)) = f s.

(** A method takes objects with property [P] to objects with property [P],
    whether it returns or raises. *)
Definition preserves {A} (P : CPU -> Prop) (m : M A) : Prop :=
  forall s, P s -> P (fst (m s)).

(** The instruction the coming cycle fetches is the int [op]. *)
Definition fetches (s : CPU) (op : Z) : Prop :=
  Py.getitem (ram s) (pc s) = Ok (VInt op).

(** The operand count the run loop decodes from an instruction. *)
Definition num_operands (instruction : Z) : Z := Z.shiftr instruction 6.

(** The register named by the operand byte at PC+1 of [s], read in [s']. *)
Definition operand_register (s s' : CPU) : result value :=
  match Py.getitem (ram s) (pc s + 1) with
  | Raise e => Raise e
  | Ok r =>
      match Py.subscript r with
      | Raise e => Raise e
      | Ok i => Py.getitem (reg s') i
      end
  end.

(** [push_steps s vs s']: from [s], as many cycles as [vs] has items run to
    completion and reach [s']; each fetches PUSH, and [vs] lists, in order,
    the contents of the register each of them names. *)
Inductive push_steps : CPU -> list value -> CPU -> Prop :=
  | push_done s : push_steps s [] s
  | push_next s s1 s' v vs :
      fetches s PUSH ->
      operand_register s s = Ok v ->
      cycle s = (s1, Ok tt) ->
      push_steps s1 vs s' ->
      push_steps s (v :: vs) s'.

(** [pop_steps s vs s']: the same for POP; [vs] lists, in order, what the
    register each POP names holds when its cycle is over. *)
Inductive pop_steps : CPU -> list value -> CPU -> Prop :=
  | pop_done s : pop_steps s [] s
  | pop_next s s1 s' v vs :
      fetches s POP ->
      cycle s = (s1, Ok tt) ->
      operand_register s s1 = Ok v ->
      pop_steps s1 vs s' ->
      pop_steps s (v :: vs) s'.

(** The state in which [run] dispatches: instruction and both operand bytes
    have been read. *)
Definition fetched (instruction operand_b : value) (s : CPU) : CPU :=
  set_mdr (Some operand_b) (set_mar (pc s + 2) (set_ir (Some instruction) s)).

(** The state in which a handler is called: [trace] has printed its line. *)
Definition traced (x0 x1 x2 : Z) (rs : list Z) (s : CPU) : CPU :=
  set_stdout
    (stdout s ++ OutTrace (pc s) x0 x1 x2 :: map OutReg rs ++ [OutNewline])
    (set_mdr (Some (VInt x2)) (set_mar (pc s + 2) s)).

(** The instructions a cycle can run to completion. *)
Definition completes : list Z := [LDI; PRN; PUSH; POP; ADD; SUB; MUL; DIV].

(** What the instructions work on: memory, registers, PC and SP (the other
    attributes are scratch registers of the memory interface and the output). *)
Definition core (s : CPU) : list value * list value * Z * Z :=
  (ram s, reg s, pc s, sp s).

(** A program that pushes R0 and R1 and pops them into R2 and R3. *)
Definition stack_demo : list Z :=
  [LDI; 0; 5; LDI; 1; 7; PUSH; 0; PUSH; 1; POP; 2; POP; 3; HLT].

(** What a cycle does between the operand reads and the PC update. *)
Definition execute (i : Z) (operand_a operand_b : value) : M unit :=
  if negb (Z.land (Z.shiftr i 5) 1 =? 0) then alu (VInt i) operand_a operand_b
  else bind trace (fun _ =>
       bind (lift (dict_get branchtable (VInt i))) (fun handler => handler)).

(** The four operators [alu] applies. *)
Definition alu_operator (op : value -> value -> result value) : Prop :=
  op = Py.add \/ op = Py.sub \/ op = Py.mul \/ op = Py.truediv.

(** The last step of a cycle. *)
Definition advance (n : Z) : M unit :=
  modify (fun s => set_pc (pc s + (n + 1)) s).

(** ** The program file *)

(** Python strings, for the lines of the program file: a character is a
    code point below 256 (every ASCII file is such a file). *)
Module PyStr.

(** The characters [int] strips: ASCII white space, and the two other code
    points below 256 that are spaces (NEL and the no-break space). *)
Definition is_space (c : ascii) : bool :=
  let n := nat_of_ascii c in
  ((9 <=? n)%nat && (n <=? 13)%nat) || (n =? 32)%nat || (n =? 133)%nat || (n =? 160)%nat.

Definition digit2 (c : ascii) : option Z :=
  if Ascii.eqb c "0" then Some 0
  else if Ascii.eqb c "1" then Some 1
  else None.

Fixpoint skip_spaces (s : string) : string :=
  match s with
  | String c s' => if is_space c then skip_spaces s' else s
  | EmptyString => s
  end.

(** The digits of a binary literal: single underscores may separate them;
    [prev] says that the character before was an underscore.  Returns the
    number read and what follows it. *)
Fixpoint binary_digits (s : string) (prev : bool) (acc : Z) : option (Z * string) :=
  match s with
  | String c s' =>
      if Ascii.eqb c "_" then
        if prev then None else binary_digits s' true acc
      else
        match digit2 c with
        | Some d => binary_digits s' false (2 * acc + d)
        | None => if prev then None else Some (acc, s)
        end
  | EmptyString => if prev then None else Some (acc, s)
  end.

(** After the sign: an optional [0b] or [0B], one optional underscore after
    it, then at least one digit. *)
Definition binary_literal (s : string) : option (Z * string) :=
  let s1 :=
    match s with
    | String c0 (String c1 s') =>
        if Ascii.eqb c0 "0" && (Ascii.eqb c1 "b" || Ascii.eqb c1 "B") then
          match s' with
          | String c2 s'' => if Ascii.eqb c2 "_" then s'' else s'
          | EmptyString => s'
          end
        else s
    | _ => s
    end in
  match s1 with
  | String c _ =>
      match digit2 c with
      | Some _ => binary_digits s1 false 0
      | None => None
      end
  | EmptyString => None
  end.

Definition signed_literal (s : string) : option (Z * string) :=
  match s with
  | String c s' =>
      if Ascii.eqb c "+" then binary_literal s'
      else if Ascii.eqb c "-" then
        match binary_literal s' with
        | Some (z, rest) => Some (- z, rest)
        | None => None
        end
      else binary_literal s
  | EmptyString => None
  end.

(** [int(s, 2)]: [None] stands for ValueError. *)
Definition int2 (s : string) : option Z :=
  match signed_literal (skip_spaces s) with
  | Some (z, rest) =>
      match skip_spaces rest with
      | EmptyString => Some z
      | String _ _ => None
      end
  | None => None
  end.

(** [s.split("#")[0]]: what comes before the first [#]. *)
Fixpoint before_hash (s : string) : string :=
  match s with
  | String c s' => if Ascii.eqb c "#" then EmptyString else String c (before_hash s')
  | EmptyString => EmptyString
  end.

(** [s[:n]] *)
Fixpoint prefix (n : nat) (s : string) : string :=
  match n, s with
  | S n', String c s' => String c (prefix n' s')
  | _, _ => EmptyString
  end.

End PyStr.

(** What the loop of [load] can raise: the ValueError of [int], with the
    literal it refused, or the IndexError of the store into memory. *)
Inductive load_exn : Type :=
  | ValueError (literal : string)
  | LoadRaise (e : exn).

(** The literal a line of the file gives to [int]: the first 8 characters
    of what precedes the comment, when that starts with 0 or 1. *)
Definition instruction_literal (line : string) : option string :=
  let possible_instruction := PyStr.before_hash line in
  match possible_instruction with
  | EmptyString => None
  | String c _ =>
      if Ascii.eqb c "1" || Ascii.eqb c "0"
      then Some (PyStr.prefix 8 possible_instruction)
      else None
  end.

(** The body of [for line in file:] in [load]; [None] when it falls through
    to the next line. *)
Definition load_line (line : string) (s : CPU) : CPU * option load_exn :=
  match instruction_literal line with
  | None => (s, None)
  | Some instruction =>
      match PyStr.int2 instruction with
      | None => (s, Some (ValueError instruction))
      | Some z =>
          match Py.setitem (ram s) (mar s) (VInt z) with
          | Raise e => (s, Some (LoadRaise e))
          | Ok cells => (set_mar (mar s + 1) (set_ram cells s), None)
          end
      end
  end.

(** The loop of [load] over the lines of the opened file. *)
Fixpoint load_lines (lines : list string) (s : CPU) : CPU * option load_exn :=
  match lines with
  | [] => (s, None)
  | line :: lines' =>
      match load_line line s with
      | (s', None) => load_lines lines' s'
      | (s', Some e) => (s', Some e)
      end
  end.

(** The numbers a file holds, when [int] accepts every literal of it. *)
Fixpoint image_of (lines : list string) : option (list Z) :=
  match lines with
  | [] => Some []
  | line :: lines' =>
      match instruction_literal line with
      | None => image_of lines'
      | Some instruction =>
          match PyStr.int2 instruction, image_of lines' with
          | Some z, Some zs => Some (z :: zs)
          | _, _ => None
          end
      end
  end.

(** A string of binary digits and the number it writes. *)
Definition bit_char (b : bool) : ascii := if b then "1"%char else "0"%char.

Fixpoint bits_string (bs : list bool) : string :=
  match bs with
  | [] => EmptyString
  | b :: bs' => String (bit_char b) (bits_string bs')
  end.

Definition bits_value (bs : list bool) : Z :=
  fold_left (fun acc b => 2 * acc + Z.b2z b) bs 0.

(** A small program file: comments, a blank line, an indented line (which
    the loader passes over), instructions with and without a comment. *)
Definition newline : string := String (ascii_of_nat 10) EmptyString.

Definition demo_file : list string :=
  [ "# load 8 and stop" ++ newline;
    newline;
    "10000010 # LDI R0,8" ++ newline;
    "00000000" ++ newline;
    "00001000" ++ newline;
    "   00000001 # not read: the line starts with a space" ++ newline;
    "00000001 # HLT" ]%string.

(** The characters a literal that [int] accepts is made of. *)
Definition literal_char (c : ascii) : bool :=
  PyStr.is_space c ||
  match PyStr.digit2 c with Some _ => true | None => false end ||
  Ascii.eqb c "_" || Ascii.eqb c "b" || Ascii.eqb c "B" ||
  Ascii.eqb c "+" || Ascii.eqb c "-".

Fixpoint all_chars (P : ascii -> bool) (s : string) : bool :=
  match s with
  | String c s' => P c && all_chars P s'
  | EmptyString => true
  end.

(** A memory cell holds a byte. *)
Definition is_byte (v : value) : Prop := exists b, v = VInt b /\ 0 <= b < 256.

(** Some register holds a float. *)
Definition has_float (s : CPU) : Prop :=
  exists k f, reg s !! k = Some (VFloat f).


(** ** Subscripts *)

Section Subscripts.
Context {A : Type}.
Implicit Types (l : list A) (i : Z) (n : nat) (x : A).

Lemma index_of_nonneg len i :
  0 <= i < Z.of_nat len -> Py.index_of len i = Some (Z.to_nat i).
Proof.
  intros H. unfold Py.index_of.
  destruct (0 <=? i) eqn:E1; [ | lia ].
  destruct (i <? Z.of_nat len) eqn:E2; [ reflexivity | lia ].
Qed.

Lemma index_of_neg len i :
  - Z.of_nat len <= i < 0 ->
  Py.index_of len i = Some (Z.to_nat (Z.of_nat len + i)).
Proof.
  intros H. unfold Py.index_of.
  destruct (0 <=? i) eqn:E1; [ lia | ]. simpl.
  destruct (- Z.of_nat len <=? i) eqn:E2; [ | lia ].
  destruct (i <? 0) eqn:E3; [ reflexivity | lia ].
Qed.

Lemma index_of_out len i :
  i < - Z.of_nat len \/ Z.of_nat len <= i -> Py.index_of len i = None.
Proof.
  intros H. unfold Py.index_of.
  destruct (0 <=? i) eqn:E1, (i <? Z.of_nat len) eqn:E2,
    (- Z.of_nat len <=? i) eqn:E3, (i <? 0) eqn:E4; simpl; try reflexivity; lia.
Qed.

Lemma index_of_Some len i n :
  Py.index_of len i = Some n ->
  (n < len)%nat /\ - Z.of_nat len <= i < Z.of_nat len /\
  Z.of_nat n = (if i <? 0 then Z.of_nat len + i else i).
Proof.
  unfold Py.index_of.
  destruct (0 <=? i) eqn:E1, (i <? Z.of_nat len) eqn:E2,
    (- Z.of_nat len <=? i) eqn:E3, (i <? 0) eqn:E4; simpl;
    intros [= <-]; lia.
Qed.

(** A subscript in range denotes the position [i mod len]. *)
Lemma index_of_mod len i :
  - Z.of_nat len <= i < Z.of_nat len ->
  Py.index_of len i = Some (Z.to_nat (i mod Z.of_nat len)).
Proof.
  intros H. destruct (Z.lt_ge_cases i 0) as [Hn | Hp].
  - rewrite index_of_neg by lia. f_equal. f_equal.
    apply (Z.mod_unique_pos _ _ (-1)); lia.
  - rewrite index_of_nonneg by lia. f_equal. f_equal.
    symmetry. apply Z.mod_small. lia.
Qed.

Lemma getitem_out l i :
  i < - Z.of_nat (length l) \/ Z.of_nat (length l) <= i ->
  Py.getitem l i = Raise IndexError.
Proof. intros H. unfold Py.getitem. now rewrite index_of_out. Qed.

Lemma getitem_Raise l i e : Py.getitem l i = Raise e -> e = IndexError.
Proof.
  unfold Py.getitem. destruct (Py.index_of (length l) i) as [n|].
  - destruct (l !! n); [ discriminate | now intros [= <-] ].
  - now intros [= <-].
Qed.

Lemma setitem_out l i x :
  i < - Z.of_nat (length l) \/ Z.of_nat (length l) <= i ->
  Py.setitem l i x = Raise IndexError.
Proof. intros H. unfold Py.setitem. now rewrite index_of_out. Qed.

Lemma getitem_Ok l i x :
  Py.getitem l i = Ok x ->
  - Z.of_nat (length l) <= i < Z.of_nat (length l) /\
  l !! Z.to_nat (i mod Z.of_nat (length l)) = Some x.
Proof.
  unfold Py.getitem. destruct (Py.index_of (length l) i) as [n|] eqn:E; [ | discriminate ].
  destruct (l !! n) as [y|] eqn:El; [ | discriminate ]. intros [= <-].
  apply index_of_Some in E as Hr. destruct Hr as (_ & Hr & _).
  split; [ exact Hr | ].
  rewrite index_of_mod in E by exact Hr. injection E as <-. exact El.
Qed.

Lemma getitem_in_range l i :
  - Z.of_nat (length l) <= i < Z.of_nat (length l) ->
  exists x, Py.getitem l i = Ok x /\
            l !! Z.to_nat (i mod Z.of_nat (length l)) = Some x.
Proof.
  intros H. unfold Py.getitem. rewrite index_of_mod by exact H.
  destruct (l !! Z.to_nat (i mod Z.of_nat (length l))) as [x|] eqn:E.
  - exists x. split; reflexivity.
  - apply lookup_ge_None in E.
    pose proof (Z.mod_pos_bound i (Z.of_nat (length l))). lia.
Qed.

Lemma getitem_lookup l i x :
  - Z.of_nat (length l) <= i < Z.of_nat (length l) ->
  l !! Z.to_nat (i mod Z.of_nat (length l)) = Some x ->
  Py.getitem l i = Ok x.
Proof.
  intros H E. unfold Py.getitem. rewrite index_of_mod by exact H. now rewrite E.
Qed.

Lemma setitem_in_range l i x :
  - Z.of_nat (length l) <= i < Z.of_nat (length l) ->
  Py.setitem l i x = Ok (<[Z.to_nat (i mod Z.of_nat (length l)) := x]> l).
Proof. intros H. unfold Py.setitem. now rewrite index_of_mod. Qed.

Lemma setitem_Ok l i x l' :
  Py.setitem l i x = Ok l' ->
  - Z.of_nat (length l) <= i < Z.of_nat (length l) /\
  l' = <[Z.to_nat (i mod Z.of_nat (length l)) := x]> l.
Proof.
  unfold Py.setitem. destruct (Py.index_of (length l) i) as [n|] eqn:E; [ | discriminate ].
  intros [= <-]. apply index_of_Some in E as Hr. destruct Hr as (_ & Hr & _).
  split; [ exact Hr | ].
  rewrite index_of_mod in E by exact Hr. now injection E as <-.
Qed.

(** A negative subscript and the subscript [len] higher name one item. *)
Lemma getitem_wrap l i :
  - Z.of_nat (length l) <= i < 0 ->
  Py.getitem l i = Py.getitem l (Z.of_nat (length l) + i).
Proof.
  intros H. unfold Py.getitem.
  rewrite index_of_neg by lia. now rewrite index_of_nonneg by lia.
Qed.

Lemma setitem_wrap l i x :
  - Z.of_nat (length l) <= i < 0 ->
  Py.setitem l i x = Py.setitem l (Z.of_nat (length l) + i) x.
Proof.
  intros H. unfold Py.setitem.
  rewrite index_of_neg by lia. now rewrite index_of_nonneg by lia.
Qed.

End Subscripts.

(** ** What the methods leave alone *)

Section Keeps.
Context {B : Type} (f : CPU -> B).

Lemma keeps_ret {A} (a : A) : keeps f (ret a).
Proof. intros s. reflexivity. Qed.

Lemma keeps_raise {A} e : keeps f (@raise A e).
Proof. intros s. reflexivity. Qed.

Lemma keeps_lift {A} (r : result A) : keeps f (lift r).
Proof. intros s. reflexivity. Qed.

Lemma keeps_gets {A} (g : CPU -> A) : keeps f (gets g).
Proof. intros s. reflexivity. Qed.

Lemma keeps_modify g : (forall s, f (g s) = f s) -> keeps f (modify g).
Proof. intros H s. apply H. Qed.

Lemma keeps_bind {A C} (m : M A) (k : A -> M C) :
  keeps f m -> (forall a, keeps f (k a)) -> keeps f (bind m k).
Proof.
  intros Hm Hk s. unfold bind. specialize (Hm s).
  destruct (m s) as [s1 [a | e]]; simpl in *.
  - rewrite Hk. exact Hm.
  - exact Hm.
Qed.

Lemma keeps_for_each {A} (xs : list A) body :
  (forall x, keeps f (body x)) -> keeps f (for_each xs body).
Proof.
  intros H. induction xs as [ | x xs IH]; simpl.
  - apply keeps_ret.
  - apply keeps_bind; [ apply H | intros _; exact IH ].
Qed.

Lemma keeps_if {A} (b : bool) (m1 m2 : M A) :
  keeps f m1 -> keeps f m2 -> keeps f (if b then m1 else m2).
Proof. destruct b; auto. Qed.

End Keeps.

(** Splits a method into its statements, by the shape of the method; what is
    left is an assignment, to be shown not to touch the observation. *)
Ltac keeps_step :=
  lazymatch goal with
  | |- keeps _ (ret _) => apply keeps_ret
  | |- keeps _ (raise _) => apply keeps_raise
  | |- keeps _ (lift _) => apply keeps_lift
  | |- keeps _ (gets _) => apply keeps_gets
  | |- keeps _ (bind _ _) => apply keeps_bind; [ | intros ? ]
  | |- keeps _ (for_each _ _) => apply keeps_for_each; intros ?
  | |- keeps _ (if _ then _ else _) => apply keeps_if
  | |- keeps _ (modify _) => apply keeps_modify; intros ?; reflexivity
  end.
Ltac keeps_tac := repeat keeps_step.

Lemma keeps_ram_read {B} (f : CPU -> B) address :
  (forall x s, f (set_mar x s) = f s) ->
  (forall x s, f (set_mdr x s) = f s) ->
  keeps f (ram_read address).
Proof.
  intros H1 H2. unfold ram_read. keeps_tac; apply keeps_modify; auto.
Qed.

Lemma keeps_print {B} (f : CPU -> B) o :
  (forall x s, f (set_stdout x s) = f s) -> keeps f (print o).
Proof. intros H. unfold print. apply keeps_modify. auto. Qed.

Lemma keeps_trace {B} (f : CPU -> B) :
  (forall x s, f (set_mar x s) = f s) ->
  (forall x s, f (set_mdr x s) = f s) ->
  (forall x s, f (set_stdout x s) = f s) ->
  keeps f trace.
Proof.
  intros H1 H2 H3. unfold trace.
  repeat lazymatch goal with
         | |- keeps _ (ram_read _) => apply keeps_ram_read; [ exact H1 | exact H2 ]
         | |- keeps _ (print _) => apply keeps_print; exact H3
         | |- _ => keeps_step
         end.
Qed.

Lemma keeps_reg_get {B} (f : CPU -> B) r : keeps f (reg_get r).
Proof. unfold reg_get. keeps_tac. Qed.

Lemma keeps_reg_set {B} (f : CPU -> B) r v :
  (forall x s, f (set_reg x s) = f s) -> keeps f (reg_set r v).
Proof. intros H. unfold reg_set. keeps_tac. apply keeps_modify. auto. Qed.

Lemma keeps_alu {B} (f : CPU -> B) op a b :
  (forall x s, f (set_reg x s) = f s) -> keeps f (alu op a b).
Proof.
  intros H. unfold alu, aug_assign.
  repeat lazymatch goal with
         | |- keeps _ (reg_set _ _) => apply keeps_reg_set; exact H
         | |- keeps _ (reg_get _) => apply keeps_reg_get
         | |- _ => keeps_step
         end.
Qed.

Lemma keeps_ram_write {B} (f : CPU -> B) address v :
  (forall x s, f (set_mar x s) = f s) ->
  (forall x s, f (set_mdr x s) = f s) ->
  (forall x s, f (set_ram x s) = f s) ->
  keeps f (ram_write address v).
Proof.
  intros H1 H2 H3. unfold ram_write. keeps_tac; apply keeps_modify; auto.
Qed.

(** No handler of the branch table assigns the program counter. *)
Lemma keeps_pc_handler op h :
  dict_get branchtable op = Ok h -> keeps pc h.
Proof.
  assert (Hall : Forall (fun kh => keeps pc (snd kh)) branchtable).
  { unfold branchtable.
    repeat constructor; cbn [snd];
      unfold handle_hlt, handle_ldi, handle_prn, handle_push, handle_pop;
      repeat lazymatch goal with
             | |- keeps _ (ram_read _) => apply keeps_ram_read; reflexivity
             | |- keeps _ (ram_write _ _) => apply keeps_ram_write; reflexivity
             | |- keeps _ (reg_set _ _) => apply keeps_reg_set; reflexivity
             | |- keeps _ (reg_get _) => apply keeps_reg_get
             | |- keeps _ (print _) => apply keeps_print; reflexivity
             | |- _ => keeps_step
             end. }
  induction Hall as [ | [k x] d Hx Hd IH]; simpl; [ discriminate | ].
  destruct (Py.eq_int op k); [ now intros [= <-] | exact IH ].
Qed.

(** ** The methods, statement by statement *)

Lemma ram_read_eq address s :
  ram_read address s =
  match Py.getitem (ram s) address with
  | Ok v => (set_mdr (Some v) (set_mar address s), Ok v)
  | Raise e => (set_mar address s, Raise e)
  end.
Proof.
  unfold ram_read, bind, modify, gets, lift, ret. simpl.
  destruct (Py.getitem (ram s) address); reflexivity.
Qed.

Lemma ram_write_eq address v s :
  ram_write address v s =
  match Py.setitem (ram s) address v with
  | Ok cells => (set_ram cells (set_mdr (Some v) (set_mar address s)), Ok tt)
  | Raise e => (set_mdr (Some v) (set_mar address s), Raise e)
  end.
Proof.
  unfold ram_write, bind, modify, gets, lift, ret. simpl.
  destruct (Py.setitem (ram s) address v); reflexivity.
Qed.

Lemma reg_get_eq r s :
  reg_get r s =
  (s, match Py.subscript r with
      | Ok i => Py.getitem (reg s) i
      | Raise e => Raise e
      end).
Proof.
  unfold reg_get, bind, gets, lift. destruct (Py.subscript r); reflexivity.
Qed.

Lemma reg_set_eq r v s :
  reg_set r v s =
  match Py.subscript r with
  | Raise e => (s, Raise e)
  | Ok i =>
      match Py.setitem (reg s) i v with
      | Ok regs => (set_reg regs s, Ok tt)
      | Raise e => (s, Raise e)
      end
  end.
Proof.
  unfold reg_set, bind, gets, lift, modify.
  destruct (Py.subscript r) as [i | e]; [ | reflexivity ].
  destruct (Py.setitem (reg s) i v); reflexivity.
Qed.

Lemma bind_eq {A B} (m : M A) (k : A -> M B) s s1 a :
  m s = (s1, Ok a) -> bind m k s = k a s1.
Proof. intros H. unfold bind. now rewrite H. Qed.


(** A completed sequence completed its first statement. *)
Lemma bind_Ok_inv {A B} (m : M A) (k : A -> M B) s s' b :
  bind m k s = (s', Ok b) ->
  exists s1 a, m s = (s1, Ok a) /\ k a s1 = (s', Ok b).
Proof.
  unfold bind. destruct (m s) as [s1 [a | e]]; [ | discriminate ].
  intros H. exists s1, a. split; [ reflexivity | exact H ].
Qed.

(** The fetch and the two operand reads of a cycle. *)
Lemma cycle_eq s i oa ob :
  Py.getitem (ram s) (pc s) = Ok (VInt i) ->
  Py.getitem (ram s) (pc s + 1) = Ok oa ->
  Py.getitem (ram s) (pc s + 2) = Ok ob ->
  cycle s =
  bind (if negb (Z.land (Z.shiftr i 5) 1 =? 0) then alu (VInt i) oa ob
        else bind trace (fun _ =>
             bind (lift (dict_get branchtable (VInt i))) (fun handler => handler)))
       (fun _ => advance (num_operands i))
       (fetched (VInt i) ob s).
Proof.
  intros H0 H1 H2. unfold cycle.
  unfold bind at 1. unfold gets at 1.
  unfold bind at 1. rewrite ram_read_eq, H0.
  unfold bind at 1. unfold modify at 1.
  unfold bind at 1. unfold lift at 1. simpl Py.rshift. cbv iota beta.
  unfold bind at 1. unfold gets at 1.
  unfold bind at 1. rewrite ram_read_eq. simpl ram. simpl pc. rewrite H1.
  unfold bind at 1. unfold gets at 1.
  unfold bind at 1. rewrite ram_read_eq. simpl ram. simpl pc. rewrite H2.
  unfold bind at 1. unfold lift at 1.
  reflexivity.
Qed.

(** A cycle that runs to completion fetched an int and read both operand
    bytes, so the three addresses are subscripts of the memory. *)
Lemma cycle_Ok_fetch s s' :
  cycle s = (s', Ok tt) ->
  exists i oa ob,
    Py.getitem (ram s) (pc s) = Ok (VInt i) /\
    Py.getitem (ram s) (pc s + 1) = Ok oa /\
    Py.getitem (ram s) (pc s + 2) = Ok ob.
Proof.
  unfold cycle.
  unfold bind at 1. unfold gets at 1.
  unfold bind at 1. rewrite ram_read_eq.
  destruct (Py.getitem (ram s) (pc s)) as [instruction | e]; [ | discriminate ].
  unfold bind at 1. unfold modify at 1.
  unfold bind at 1. unfold lift at 1.
  destruct instruction as [i | f]; [ | discriminate ]. simpl Py.rshift. cbv iota beta.
  unfold bind at 1. unfold gets at 1.
  unfold bind at 1. rewrite ram_read_eq. simpl ram. simpl pc.
  destruct (Py.getitem (ram s) (pc s + 1)) as [oa | e]; [ | discriminate ].
  unfold bind at 1. unfold gets at 1.
  unfold bind at 1. rewrite ram_read_eq. simpl ram. simpl pc.
  destruct (Py.getitem (ram s) (pc s + 2)) as [ob | e]; [ | discriminate ].
  intros _. exists i, oa, ob. repeat split.
Qed.

(** ** The program counter *)

Lemma keeps_pc_dispatch op :
  keeps pc (bind (lift (dict_get branchtable op)) (fun handler => handler)).
Proof.
  intros s. unfold bind, lift.
  destruct (dict_get branchtable op) as [h | e] eqn:E; [ | reflexivity ].
  now apply (keeps_pc_handler op).
Qed.

Lemma keeps_pc_execute i oa ob :
  keeps pc
    (if negb (Z.land (Z.shiftr i 5) 1 =? 0) then alu (VInt i) oa ob
     else bind trace (fun _ =>
          bind (lift (dict_get branchtable (VInt i))) (fun handler => handler))).
Proof.
  apply keeps_if.
  - apply keeps_alu. reflexivity.
  - apply keeps_bind; [ apply keeps_trace; reflexivity | intros _ ].
    apply keeps_pc_dispatch.
Qed.

Lemma alu_Ok_opcode i oa ob s s' :
  alu (VInt i) oa ob s = (s', Ok tt) -> In i [ADD; SUB; MUL; DIV].
Proof.
  unfold alu, Py.eq_int.
  destruct (i =? ADD) eqn:E1; [ intros _; simpl; lia | ].
  destruct (i =? SUB) eqn:E2; [ intros _; simpl; lia | ].
  destruct (i =? MUL) eqn:E3; [ intros _; simpl; lia | ].
  destruct (i =? DIV) eqn:E4; [ intros _; simpl; lia | ].
  unfold raise. discriminate.
Qed.

Lemma handler_Ok_opcode i s s' :
  bind (lift (dict_get branchtable (VInt i))) (fun handler => handler) s = (s', Ok tt) ->
  In i [LDI; PRN; PUSH; POP].
Proof.
  unfold bind, lift, branchtable, dict_get, Py.eq_int.
  destruct (i =? HLT) eqn:E0; [ unfold handle_hlt, raise; discriminate | ].
  destruct (i =? LDI) eqn:E1; [ intros _; simpl; lia | ].
  destruct (i =? PRN) eqn:E2; [ intros _; simpl; lia | ].
  destruct (i =? PUSH) eqn:E3; [ intros _; simpl; lia | ].
  destruct (i =? POP) eqn:E4; [ intros _; simpl; lia | ].
  discriminate.
Qed.

Lemma cycle_Ok_opcode s s' i :
  cycle s = (s', Ok tt) -> fetches s i -> In i completes.
Proof.
  intros Hc Hf. destruct (cycle_Ok_fetch _ _ Hc) as (i' & oa & ob & H0 & H1 & H2).
  unfold fetches in Hf. rewrite Hf in H0. injection H0 as <-.
  rewrite (cycle_eq s i oa ob Hf H1 H2) in Hc.
  apply bind_Ok_inv in Hc as (s1 & [] & Hx & _).
  destruct (negb (Z.land (Z.shiftr i 5) 1 =? 0)).
  - apply alu_Ok_opcode in Hx. unfold completes. simpl in *. tauto.
  - apply bind_Ok_inv in Hx as (s2 & [] & _ & Hx).
    apply handler_Ok_opcode in Hx. unfold completes. simpl in *. tauto.
Qed.

Lemma cycle_Ok_pc s s' i :
  cycle s = (s', Ok tt) -> fetches s i -> pc s' = pc s + (num_operands i + 1).
Proof.
  intros Hc Hf. destruct (cycle_Ok_fetch _ _ Hc) as (i' & oa & ob & H0 & H1 & H2).
  unfold fetches in Hf. rewrite Hf in H0. injection H0 as <-.
  rewrite (cycle_eq s i oa ob Hf H1 H2) in Hc.
  apply bind_Ok_inv in Hc as (s1 & [] & Hx & Ha).
  pose proof (keeps_pc_execute i oa ob (fetched (VInt i) ob s)) as Hk.
  rewrite Hx in Hk. simpl in Hk.
  unfold advance, modify in Ha. injection Ha as <-. simpl. now rewrite Hk.
Qed.

(** C1. Every cycle that runs to completion (only HLT and faults do not)
    leaves the program counter at its former value plus 1 plus the operand
    count of the instruction fetched; that instruction is a byte other than
    HLT, and the count is the value of its two most significant bits, which
    is at most 2.  Nothing else decides the new PC: the statement holds for
    ALU instructions and branch-table instructions alike. *)
Theorem cycle_advances_pc s s' :
  cycle s = (s', Ok tt) ->
  exists i,
    fetches s i /\ i <> HLT /\ 0 <= i < 256 /\
    num_operands i = i / 64 /\ 0 <= num_operands i <= 2 /\
    pc s' = pc s + 1 + num_operands i.
Proof.
  intros Hc. destruct (cycle_Ok_fetch _ _ Hc) as (i & oa & ob & H0 & _).
  exists i. pose proof (cycle_Ok_opcode _ _ _ Hc H0) as Hin.
  pose proof (cycle_Ok_pc _ _ _ Hc H0) as Hpc.
  split; [ exact H0 | ].
  unfold completes in Hin. simpl in Hin.
  assert (Hn : num_operands i = i / 64) by (unfold num_operands; now rewrite Z.shiftr_div_pow2).
  rewrite Hn in *.
  unfold HLT, LDI, PRN, PUSH, POP, ADD, SUB, MUL, DIV in *.
  repeat (destruct Hin as [<- | Hin];
          [ repeat split; try lia; try reflexivity; try (intros ?; discriminate);
            rewrite Hpc; vm_compute (_ / 64); lia | ]).
  destruct Hin.
Qed.

(** The theorem at the first cycle of [LDI R0,8; HLT]. *)
Lemma cycle_advances_pc_witness :
  exists i,
    fetches (boot [LDI; 0; 8; HLT]) i /\ i <> HLT /\ 0 <= i < 256 /\
    num_operands i = i / 64 /\ 0 <= num_operands i <= 2 /\
    pc (fst (cycle (boot [LDI; 0; 8; HLT]))) = pc (boot [LDI; 0; 8; HLT]) + 1 + num_operands i.
Proof.
  apply (cycle_advances_pc (boot [LDI; 0; 8; HLT])).
  vm_compute. reflexivity.
Defined.

(** ** The handlers, statement by statement *)

Lemma handle_ldi_eq s :
  handle_ldi s =
  match Py.getitem (ram s) (pc s + 1) with
  | Raise e => (set_mar (pc s + 1) s, Raise e)
  | Ok register =>
      match Py.getitem (ram s) (pc s + 2) with
      | Raise e => (set_mar (pc s + 2) (set_mdr (Some register) (set_mar (pc s + 1) s)), Raise e)
      | Ok v => reg_set register v (set_mdr (Some v) (set_mar (pc s + 2) s))
      end
  end.
Proof.
  unfold handle_ldi.
  unfold bind at 1. unfold gets at 1.
  unfold bind at 1. rewrite ram_read_eq.
  destruct (Py.getitem (ram s) (pc s + 1)) as [register | e]; [ | reflexivity ].
  unfold bind at 1. unfold gets at 1.
  unfold bind at 1. rewrite ram_read_eq. simpl ram. simpl pc.
  destruct (Py.getitem (ram s) (pc s + 2)) as [v | e]; reflexivity.
Qed.

Lemma handle_push_eq s :
  handle_push s =
  let s1 := set_sp (sp s - 1) s in
  match Py.getitem (ram s) (pc s + 1) with
  | Raise e => (set_mar (pc s + 1) s1, Raise e)
  | Ok register =>
      let s2 := set_mdr (Some register) (set_mar (pc s + 1) s1) in
      match Py.subscript register with
      | Raise e => (s2, Raise e)
      | Ok i =>
          match Py.getitem (reg s) i with
          | Raise e => (s2, Raise e)
          | Ok v => ram_write (sp s - 1) v s2
          end
      end
  end.
Proof.
  unfold handle_push.
  unfold bind at 1. unfold modify at 1.
  unfold bind at 1. unfold gets at 1.
  unfold bind at 1. rewrite ram_read_eq. simpl ram. simpl pc.
  destruct (Py.getitem (ram s) (pc s + 1)) as [register | e]; [ | reflexivity ].
  unfold bind at 1. rewrite reg_get_eq. simpl reg.
  destruct (Py.subscript register) as [i | e]; [ | reflexivity ].
  destruct (Py.getitem (reg s) i) as [v | e]; reflexivity.
Qed.

Lemma handle_pop_eq s :
  handle_pop s =
  match Py.getitem (ram s) (sp s) with
  | Raise e => (set_mar (sp s) s, Raise e)
  | Ok v =>
      match Py.getitem (ram s) (pc s + 1) with
      | Raise e => (set_mar (pc s + 1) (set_mdr (Some v) (set_mar (sp s) s)), Raise e)
      | Ok register =>
          let s2 := set_mdr (Some register) (set_mar (pc s + 1) s) in
          match Py.subscript register with
          | Raise e => (s2, Raise e)
          | Ok i =>
              match Py.setitem (reg s) i v with
              | Raise e => (s2, Raise e)
              | Ok regs => (set_sp (sp s + 1) (set_reg regs s2), Ok tt)
              end
          end
      end
  end.
Proof.
  unfold handle_pop.
  unfold bind at 1. unfold gets at 1.
  unfold bind at 1. rewrite ram_read_eq.
  destruct (Py.getitem (ram s) (sp s)) as [v | e]; [ | reflexivity ].
  unfold bind at 1. unfold gets at 1.
  unfold bind at 1. rewrite ram_read_eq. simpl ram. simpl pc.
  destruct (Py.getitem (ram s) (pc s + 1)) as [register | e]; [ | reflexivity ].
  unfold bind at 1. rewrite reg_set_eq. simpl reg.
  destruct (Py.subscript register) as [i | e]; [ | reflexivity ].
  destruct (Py.setitem (reg s) i v) as [regs | e]; reflexivity.
Qed.

(** ** Memory accesses and their addresses *)

(** C10. In a memory of 256 cells an address [a] from -256 to -1 is no
    fault: a read returns the contents of cell [256 + a] and a write stores
    into cell [256 + a], exactly as the same access at address [256 + a]
    does.  So PUSH with SP = 0 leaves SP = -1 and the register's value in
    cell 255, without a fault. *)
Theorem negative_address_wraps s :
  wf s ->
  (forall a v,
     -256 <= a <= -1 ->
     (exists x,
        ram s !! Z.to_nat (256 + a) = Some x /\
        ram_read a s = (set_mdr (Some x) (set_mar a s), Ok x) /\
        snd (ram_read (256 + a) s) = Ok x) /\
     ram_write a v s =
       (set_ram (<[Z.to_nat (256 + a) := v]> (ram s))
          (set_mdr (Some v) (set_mar a s)), Ok tt) /\
     ram (fst (ram_write (256 + a) v s)) = <[Z.to_nat (256 + a) := v]> (ram s)) /\
  (forall x,
     sp s = 0 ->
     operand_register s s = Ok x ->
     exists s',
       handle_push s = (s', Ok tt) /\ sp s' = -1 /\
       ram s' = <[255%nat := x]> (ram s) /\ ram s' !! 255%nat = Some x).
Proof.
  intros [Hram Hreg]. split.
  - intros a v Ha.
    assert (Hlen : Z.of_nat (length (ram s)) = 256) by (rewrite Hram; reflexivity).
    assert (Hw : Py.getitem (ram s) a = Py.getitem (ram s) (256 + a)).
    { rewrite <- Hlen. apply getitem_wrap. lia. }
    destruct (getitem_in_range (ram s) (256 + a)) as (x & Hx & Hl); [ lia | ].
    rewrite Hlen, Z.mod_small in Hl by lia.
    split; [ exists x; repeat split | split ].
    + exact Hl.
    + rewrite ram_read_eq, Hw, Hx. reflexivity.
    + rewrite ram_read_eq, Hx. reflexivity.
    + rewrite ram_write_eq.
      rewrite (setitem_wrap (ram s) a v) by lia. rewrite Hlen.
      rewrite setitem_in_range by lia.
      rewrite Hlen, Z.mod_small by lia. reflexivity.
    + rewrite ram_write_eq. rewrite setitem_in_range by lia.
      rewrite Hlen, Z.mod_small by lia. reflexivity.
  - intros x Hsp Hop. unfold operand_register in Hop.
    rewrite handle_push_eq. cbv zeta.
    destruct (Py.getitem (ram s) (pc s + 1)) as [register | e]; [ | discriminate ].
    destruct (Py.subscript register) as [i | e]; [ | discriminate ].
    rewrite Hop, ram_write_eq. simpl ram.
    rewrite setitem_in_range by (rewrite Hram, Hsp; lia).
    rewrite Hram, Hsp. change (Z.to_nat ((0 - 1) mod Z.of_nat 256)) with 255%nat.
    eexists. split; [ reflexivity | ]. simpl. repeat split.
    apply list_lookup_insert_eq. lia.
Qed.

(** The theorem in the machine [CPU()] builds, at address -1 and, with SP
    set to 0, for PUSH of the register memory names at PC+1 (R0). *)
Lemma negative_address_wraps_witness :
  (exists x,
     ram init !! Z.to_nat (256 + -1) = Some x /\
     ram_read (-1) init = (set_mdr (Some x) (set_mar (-1) init), Ok x) /\
     snd (ram_read (256 + -1) init) = Ok x) /\
  (exists s',
     handle_push (set_sp 0 init) = (s', Ok tt) /\ sp s' = -1 /\
     ram s' = <[255%nat := VInt 0]> (ram (set_sp 0 init)) /\
     ram s' !! 255%nat = Some (VInt 0)).
Proof.
  split.
  - assert (Hwf : wf init) by (split; reflexivity).
    exact (proj1 (proj1 (negative_address_wraps init Hwf) (-1) (VInt 7) ltac:(lia))).
  - assert (Hwf : wf (set_sp 0 init)) by (split; reflexivity).
    exact (proj2 (negative_address_wraps (set_sp 0 init) Hwf) (VInt 0)
             eq_refl eq_refl).
Defined.

(** Address -1 lies outside [0, 255], yet in the machine [CPU()] builds a
    read there returns a value and a write there stores into cell 255: it is
    not true that every access outside [0, 255] is a fault. *)
Lemma address_below_zero_is_no_fault :
  (wf init /\ ~ 0 <= -1 <= 255 /\
   snd (ram_read (-1) init) = Ok (VInt 0) /\
   snd (ram_write (-1) (VInt 9) init) = Ok tt /\
   ram (fst (ram_write (-1) (VInt 9) init)) !! 255%nat = Some (VInt 9)) /\
  ~ (forall s a v,
       wf s -> ~ 0 <= a <= 255 ->
       (exists e, snd (ram_read a s) = Raise e) /\
       (exists e, snd (ram_write a v s) = Raise e)).
Proof.
  split.
  - repeat split; try reflexivity. lia.
  - intros H.
    destruct (H init (-1) (VInt 9)) as [[e He] _].
    + split; reflexivity.
    + lia.
    + discriminate He.
Qed.

(** C6, amended. In a memory of 256 cells every read or write at an address
    above 255 or below -256 raises IndexError, and no cell is read or
    written: nothing wraps around beyond address 255.  This covers the
    operand reads at PC+1 and PC+2 when PC is 254 or 255 (the cycle raises
    IndexError and leaves memory, registers and PC alone) and the fetch
    itself when PC is outside [-256, 255]. *)
Theorem address_out_of_range_faults s :
  wf s ->
  (forall a v,
     a < -256 \/ 255 < a ->
     ram_read a s = (set_mar a s, Raise IndexError) /\
     ram_write a v s = (set_mdr (Some v) (set_mar a s), Raise IndexError)) /\
  (forall i,
     fetches s i -> 253 < pc s ->
     exists s',
       cycle s = (s', Raise IndexError) /\
       ram s' = ram s /\ reg s' = reg s /\ pc s' = pc s /\ sp s' = sp s) /\
  (pc s < -256 \/ 255 < pc s ->
   cycle s = (set_mar (pc s) s, Raise IndexError)).
Proof.
  intros [Hram Hreg].
  assert (Hout : forall a, a < -256 \/ 255 < a -> Py.getitem (ram s) a = Raise IndexError).
  { intros a Ha. apply getitem_out. rewrite Hram. lia. }
  split; [ | split ].
  - intros a v Ha. split.
    + rewrite ram_read_eq, Hout by exact Ha. reflexivity.
    + rewrite ram_write_eq, setitem_out by (rewrite Hram; lia). reflexivity.
  - intros i Hf Hpc. unfold fetches in Hf.
    assert (Hle : pc s <= 255).
    { apply getitem_Ok in Hf. rewrite Hram in Hf. lia. }
    unfold cycle.
    unfold bind at 1. unfold gets at 1.
    unfold bind at 1. rewrite ram_read_eq, Hf.
    unfold bind at 1. unfold modify at 1.
    unfold bind at 1. unfold lift at 1. simpl Py.rshift. cbv iota beta.
    unfold bind at 1. unfold gets at 1.
    unfold bind at 1. rewrite ram_read_eq. simpl ram. simpl pc.
    destruct (Py.getitem (ram s) (pc s + 1)) as [oa | e] eqn:E1.
    + unfold bind at 1. unfold gets at 1.
      unfold bind at 1. rewrite ram_read_eq. simpl ram. simpl pc.
      rewrite Hout by lia.
      eexists. split; [ reflexivity | ]. repeat split.
    + apply getitem_Raise in E1 as ->.
      eexists. split; [ reflexivity | ]. repeat split.
  - intros Hpc. unfold cycle.
    unfold bind at 1. unfold gets at 1.
    unfold bind at 1. rewrite ram_read_eq, Hout by exact Hpc. reflexivity.
Qed.

(** The theorem in the machine [CPU()] builds: a read and a write at address
    256, and the cycle of an instruction placed at address 254. *)
Lemma address_out_of_range_faults_witness :
  (ram_read 256 init = (set_mar 256 init, Raise IndexError) /\
   ram_write 256 (VInt 1) init =
     (set_mdr (Some (VInt 1)) (set_mar 256 init), Raise IndexError)) /\
  (exists s',
     cycle (set_pc 254 init) = (s', Raise IndexError) /\
     ram s' = ram (set_pc 254 init) /\ reg s' = reg (set_pc 254 init) /\
     pc s' = pc (set_pc 254 init) /\ sp s' = sp (set_pc 254 init)).
Proof.
  split.
  - assert (Hwf : wf init) by (split; reflexivity).
    exact (proj1 (address_out_of_range_faults init Hwf) 256 (VInt 1)
             ltac:(right; reflexivity)).
  - assert (Hwf : wf (set_pc 254 init)) by (split; reflexivity).
    exact (proj1 (proj2 (address_out_of_range_faults (set_pc 254 init) Hwf)) 0
             eq_refl eq_refl).
Defined.

(** ** The trace line *)

Lemma trace_reg_eq s i r :
  Py.getitem (reg s) i = Ok (VInt r) ->
  bind (gets reg) (fun regs =>
    bind (lift (Py.getitem regs i)) (fun v =>
      bind (lift (Py.hex_arg v)) (fun x => print (OutReg x)))) s =
  (set_stdout (stdout s ++ [OutReg r]) s, Ok tt).
Proof.
  intros H. unfold bind, gets, lift, print, modify. rewrite H. reflexivity.
Qed.

Lemma trace_loop_eq s rs :
  reg s = map VInt rs -> length rs = 8%nat ->
  for_each [0; 1; 2; 3; 4; 5; 6; 7] (fun i =>
    bind (gets reg) (fun regs =>
      bind (lift (Py.getitem regs i)) (fun v =>
        bind (lift (Py.hex_arg v)) (fun x => print (OutReg x))))) s =
  (set_stdout (stdout s ++ map OutReg rs) s, Ok tt).
Proof.
  intros Hr Hl.
  do 8 (destruct rs as [ | ? rs]; [ discriminate Hl | ]).
  destruct rs; [ clear Hl | discriminate Hl ].
  cbn [for_each].
  do 8 (erewrite bind_eq
          by (apply trace_reg_eq; cbn [set_stdout reg]; rewrite Hr; reflexivity)).
  unfold ret. cbn [set_stdout stdout ram reg pc ir mar mdr sp].
  rewrite <- !app_assoc. reflexivity.
Qed.

(** With ints in the three cells at PC and in all registers, [trace] prints
    its line and returns. *)
Lemma trace_eq s x0 x1 x2 rs :
  Py.getitem (ram s) (pc s) = Ok (VInt x0) ->
  Py.getitem (ram s) (pc s + 1) = Ok (VInt x1) ->
  Py.getitem (ram s) (pc s + 2) = Ok (VInt x2) ->
  reg s = map VInt rs -> length rs = 8%nat ->
  trace s = (traced x0 x1 x2 rs s, Ok tt).
Proof.
  intros H0 H1 H2 Hr Hl.
  unfold trace.
  unfold bind at 1. unfold gets at 1.
  unfold bind at 1. rewrite ram_read_eq, H0.
  unfold bind at 1. unfold gets at 1.
  unfold bind at 1. rewrite ram_read_eq.
  cbn [set_mdr set_mar ram pc]. rewrite H1.
  unfold bind at 1. unfold gets at 1.
  unfold bind at 1. rewrite ram_read_eq.
  cbn [set_mdr set_mar ram pc]. rewrite H2.
  unfold bind at 1. unfold lift at 1. cbn [Py.hex_arg].
  unfold bind at 1. unfold lift at 1. cbn [Py.hex_arg].
  unfold bind at 1. unfold lift at 1. cbn [Py.hex_arg].
  unfold bind at 1. unfold print at 1, modify at 1.
  change (seqZ 0 8) with [0; 1; 2; 3; 4; 5; 6; 7].
  erewrite bind_eq by (apply (trace_loop_eq _ rs); [ exact Hr | exact Hl ]).
  unfold print, modify, traced.
  cbn [set_stdout set_mdr set_mar stdout ram reg pc ir mar mdr sp].
  rewrite <- !app_assoc. reflexivity.
Qed.

(** ** Dispatch *)

(** Bit 5 of the instruction, as [run] computes it. *)
Lemma alu_bit i : Z.land (Z.shiftr i 5) 1 = Z.b2z (Z.testbit i 5).
Proof.
  change 1 with (Z.ones 1). rewrite Z.land_ones by lia.
  change (2 ^ 1) with 2. rewrite <- Z.bit0_mod.
  now rewrite Z.shiftr_spec by lia.
Qed.

Lemma cycle_alu_eq s i oa ob :
  fetches s i ->
  Py.getitem (ram s) (pc s + 1) = Ok oa ->
  Py.getitem (ram s) (pc s + 2) = Ok ob ->
  Z.testbit i 5 = true ->
  cycle s =
  bind (alu (VInt i) oa ob) (fun _ => advance (num_operands i)) (fetched (VInt i) ob s).
Proof.
  intros H0 H1 H2 Hb. rewrite (cycle_eq s i oa ob H0 H1 H2).
  now rewrite alu_bit, Hb.
Qed.

Lemma cycle_handler_eq s i x1 x2 rs :
  fetches s i ->
  Py.getitem (ram s) (pc s + 1) = Ok (VInt x1) ->
  Py.getitem (ram s) (pc s + 2) = Ok (VInt x2) ->
  reg s = map VInt rs -> length rs = 8%nat ->
  Z.testbit i 5 = false ->
  cycle s =
  bind (bind (lift (dict_get branchtable (VInt i))) (fun handler => handler))
       (fun _ => advance (num_operands i))
       (traced i x1 x2 rs (fetched (VInt i) (VInt x2) s)).
Proof.
  intros H0 H1 H2 Hr Hl Hb. rewrite (cycle_eq s i _ _ H0 H1 H2).
  rewrite alu_bit, Hb. cbn [Z.b2z Z.eqb negb].
  unfold bind at 1. unfold bind at 1.
  rewrite (trace_eq _ i x1 x2 rs) by assumption.
  reflexivity.
Qed.

(** When the lookup or the handler of a branch-table instruction cannot
    return, the cycle raises, whatever happens before the dispatch, and
    leaves memory, registers, PC and SP alone. *)
Lemma cycle_handler_raises s i :
  fetches s i ->
  Z.testbit i 5 = false ->
  (forall s1, exists e,
     bind (lift (dict_get branchtable (VInt i))) (fun handler => handler) s1
     = (s1, Raise e)) ->
  exists s' e, cycle s = (s', Raise e) /\ core s' = core s.
Proof.
  intros H0 Hb Hh. unfold fetches in H0.
  destruct (Py.getitem (ram s) (pc s + 1)) as [oa | e1] eqn:E1;
    [ destruct (Py.getitem (ram s) (pc s + 2)) as [ob | e2] eqn:E2 | ].
  - rewrite (cycle_eq s i oa ob H0 E1 E2). rewrite alu_bit, Hb. cbn [Z.b2z Z.eqb negb].
    unfold bind at 1. unfold bind at 1.
    pose proof (keeps_trace core ltac:(reflexivity) ltac:(reflexivity)
                  ltac:(reflexivity) (fetched (VInt i) ob s)) as Hk.
    destruct (trace (fetched (VInt i) ob s)) as [s1 [[] | e]].
    + destruct (Hh s1) as [e He]. rewrite He.
      exists s1, e. split; [ reflexivity | exact Hk ].
    + exists s1, e. split; [ reflexivity | exact Hk ].
  - unfold cycle.
    unfold bind at 1. unfold gets at 1.
    unfold bind at 1. rewrite ram_read_eq, H0.
    unfold bind at 1. unfold modify at 1.
    unfold bind at 1. unfold lift at 1. cbn [Py.rshift].
    unfold bind at 1. unfold gets at 1.
    unfold bind at 1. rewrite ram_read_eq. cbn [set_mdr set_mar set_ir ram pc]. rewrite E1.
    unfold bind at 1. unfold gets at 1.
    unfold bind at 1. rewrite ram_read_eq. cbn [set_mdr set_mar set_ir ram pc]. rewrite E2.
    eexists _, _. split; reflexivity.
  - unfold cycle.
    unfold bind at 1. unfold gets at 1.
    unfold bind at 1. rewrite ram_read_eq, H0.
    unfold bind at 1. unfold modify at 1.
    unfold bind at 1. unfold lift at 1. cbn [Py.rshift].
    unfold bind at 1. unfold gets at 1.
    unfold bind at 1. rewrite ram_read_eq. cbn [set_mdr set_mar set_ir ram pc]. rewrite E1.
    eexists _, _. split; reflexivity.
Qed.

Lemma dict_get_missing {A} (d : list (Z * A)) k :
  ~ In k (map fst d) -> dict_get d (VInt k) = Raise (KeyError (VInt k)).
Proof.
  induction d as [ | [k' x] d IH]; simpl; intros H; [ reflexivity | ].
  destruct (k =? k') eqn:E.
  - apply Z.eqb_eq in E. subst k'. tauto.
  - apply IH. tauto.
Qed.

Lemma run_raise n s s' e :
  cycle s = (s', Raise e) -> run (S n) s = (s', Some e).
Proof. intros H. simpl. now rewrite H. Qed.

(** C7. When the instruction fetched has bit 5 clear and is no key of the
    branch table, the run loop ends in that cycle with an exception, leaving
    memory, registers, PC and SP as they were; the exception is the KeyError
    of the lookup whenever the cycle gets as far as the lookup, that is when
    the two operand bytes and the registers hold ints (otherwise the operand
    read or the trace line has raised before). *)
Theorem unknown_opcode_raises s i n :
  fetches s i ->
  Z.testbit i 5 = false ->
  ~ In i (map fst branchtable) ->
  dict_get branchtable (VInt i) = Raise (KeyError (VInt i)) /\
  (exists s' e, run (S n) s = (s', Some e) /\ core s' = core s) /\
  (forall x1 x2 rs,
     Py.getitem (ram s) (pc s + 1) = Ok (VInt x1) ->
     Py.getitem (ram s) (pc s + 2) = Ok (VInt x2) ->
     reg s = map VInt rs -> length rs = 8%nat ->
     run (S n) s =
       (traced i x1 x2 rs (fetched (VInt i) (VInt x2) s), Some (KeyError (VInt i)))).
Proof.
  intros H0 Hb Hk. pose proof (dict_get_missing branchtable i Hk) as Hd.
  split; [ exact Hd | split ].
  - destruct (cycle_handler_raises s i H0 Hb) as (s' & e & Hc & Hcore).
    + intros s1. exists (KeyError (VInt i)). unfold bind, lift. now rewrite Hd.
    + exists s', e. split; [ now apply run_raise | exact Hcore ].
  - intros x1 x2 rs H1 H2 Hr Hl. apply run_raise.
    rewrite (cycle_handler_eq s i x1 x2 rs) by assumption.
    unfold bind, lift. now rewrite Hd.
Qed.

(** The theorem in the machine [CPU()] builds, whose memory is all zeros:
    0 is not an opcode. *)
Lemma unknown_opcode_raises_witness :
  run 1 init =
    (traced 0 0 0 [0; 0; 0; 0; 0; 0; 0; 0xF3] (fetched (VInt 0) (VInt 0) init),
     Some (KeyError (VInt 0))).
Proof.
  refine (proj2 (proj2 (unknown_opcode_raises init 0 0 eq_refl eq_refl _))
            0 0 [0; 0; 0; 0; 0; 0; 0; 0xF3] eq_refl eq_refl eq_refl eq_refl).
  simpl. unfold HLT, LDI, PRN, PUSH, POP. lia.
Defined.

(** C9. [handle_hlt] raises SystemExit and changes nothing.  When the
    instruction fetched is HLT the run loop ends in that very cycle, whatever
    the fuel: no later cycle runs, and memory, registers, PC and SP are as
    they were before the fetch.  The loop ends with SystemExit whenever the
    handler is reached, that is when the two bytes after HLT and the
    registers hold ints. *)
Theorem hlt_ends_run s n :
  fetches s HLT ->
  handle_hlt s = (s, Raise SystemExit) /\
  (exists s' e, run (S n) s = (s', Some e) /\ core s' = core s) /\
  (forall x1 x2 rs,
     Py.getitem (ram s) (pc s + 1) = Ok (VInt x1) ->
     Py.getitem (ram s) (pc s + 2) = Ok (VInt x2) ->
     reg s = map VInt rs -> length rs = 8%nat ->
     run (S n) s =
       (traced HLT x1 x2 rs (fetched (VInt HLT) (VInt x2) s), Some SystemExit)).
Proof.
  intros H0. split; [ reflexivity | split ].
  - destruct (cycle_handler_raises s HLT H0 eq_refl) as (s' & e & Hc & Hcore).
    + intros s1. exists SystemExit. reflexivity.
    + exists s', e. split; [ now apply run_raise | exact Hcore ].
  - intros x1 x2 rs H1 H2 Hr Hl. apply run_raise.
    rewrite (cycle_handler_eq s HLT x1 x2 rs) by first [ assumption | reflexivity ].
    reflexivity.
Qed.

(** The theorem for the program [HLT; LDI R0,8], with fuel for 5 cycles:
    the loop is left at once, PC is still 0 and R0 still 0. *)
Lemma hlt_ends_run_witness :
  run 5 (boot [HLT; LDI; 0; 8]) =
    (traced HLT LDI 0 [0; 0; 0; 0; 0; 0; 0; 0xF3]
       (fetched (VInt HLT) (VInt 0) (boot [HLT; LDI; 0; 8])),
     Some SystemExit).
Proof.
  exact (proj2 (proj2 (hlt_ends_run (boot [HLT; LDI; 0; 8]) 4 eq_refl))
           LDI 0 [0; 0; 0; 0; 0; 0; 0; 0xF3] eq_refl eq_refl eq_refl eq_refl).
Defined.

(** ** The arithmetic unit *)

Lemma aug_assign_eq op a b x y s :
  Py.getitem (reg s) a = Ok x ->
  Py.getitem (reg s) b = Ok y ->
  aug_assign op (VInt a) (VInt b) s =
  match op x y with
  | Raise e => (s, Raise e)
  | Ok z =>
      match Py.setitem (reg s) a z with
      | Ok regs => (set_reg regs s, Ok tt)
      | Raise e => (s, Raise e)
      end
  end.
Proof.
  intros Ha Hb. unfold aug_assign.
  unfold bind at 1. rewrite reg_get_eq. cbn [Py.subscript]. rewrite Ha.
  unfold bind at 1. rewrite reg_get_eq. cbn [Py.subscript]. rewrite Hb.
  unfold bind at 1. unfold lift at 1.
  destruct (op x y) as [z | e]; [ | reflexivity ].
  rewrite reg_set_eq. reflexivity.
Qed.

(** Register [a], for a register number from 0 to 7. *)
Lemma register_getitem s a x :
  wf s -> 0 <= a < 8 -> reg s !! Z.to_nat a = Some x ->
  Py.getitem (reg s) a = Ok x.
Proof.
  intros [_ Hreg] Ha Hx. apply getitem_lookup; rewrite Hreg; [ lia | ].
  now rewrite Z.mod_small by lia.
Qed.

Lemma register_setitem s a z :
  wf s -> 0 <= a < 8 ->
  Py.setitem (reg s) a z = Ok (<[Z.to_nat a := z]> (reg s)).
Proof.
  intros [_ Hreg] Ha. rewrite setitem_in_range by (rewrite Hreg; lia).
  now rewrite Hreg, Z.mod_small by lia.
Qed.

(** An operator that returns [z] on the contents of registers [a] and [b]
    makes [alu] store [z] in register [a] and nothing else. *)
Lemma alu_stores op f s a b x y z :
  (forall u v, alu (VInt op) u v = aug_assign f u v) ->
  wf s -> 0 <= a < 8 -> 0 <= b < 8 ->
  reg s !! Z.to_nat a = Some x ->
  reg s !! Z.to_nat b = Some y ->
  f x y = Ok z ->
  alu (VInt op) (VInt a) (VInt b) s = (set_reg (<[Z.to_nat a := z]> (reg s)) s, Ok tt).
Proof.
  intros Hop Hwf Ha Hb Hx Hy Hz. rewrite Hop.
  rewrite (aug_assign_eq f a b x y) by (apply register_getitem; assumption).
  rewrite Hz. now rewrite register_setitem.
Qed.

(** C8. [alu] raises its "Unsupported ALU operation" exception, changing
    nothing, for every operation other than ADD, SUB, MUL and DIV; so when
    the instruction fetched has bit 5 set and is none of the four, the run
    loop ends in that cycle with this exception (provided the two operand
    reads, which come first, are within memory), PC not advanced. *)
Theorem unsupported_alu_operation_raises s i n :
  ~ In i [ADD; SUB; MUL; DIV] ->
  (forall a b,
     alu (VInt i) a b s = (s, Raise (Exception_ "Unsupported ALU operation"))) /\
  (forall oa ob,
     fetches s i -> Z.testbit i 5 = true ->
     Py.getitem (ram s) (pc s + 1) = Ok oa ->
     Py.getitem (ram s) (pc s + 2) = Ok ob ->
     run (S n) s =
       (fetched (VInt i) ob s, Some (Exception_ "Unsupported ALU operation"))).
Proof.
  intros Hi.
  assert (Halu : forall a b s1,
            alu (VInt i) a b s1 = (s1, Raise (Exception_ "Unsupported ALU operation"))).
  { intros a b s1. unfold alu, Py.eq_int. simpl in Hi.
    destruct (i =? ADD) eqn:E1; [ apply Z.eqb_eq in E1; subst i; exfalso; apply Hi; auto 6 | ].
    destruct (i =? SUB) eqn:E2; [ apply Z.eqb_eq in E2; subst i; exfalso; apply Hi; auto 6 | ].
    destruct (i =? MUL) eqn:E3; [ apply Z.eqb_eq in E3; subst i; exfalso; apply Hi; auto 6 | ].
    destruct (i =? DIV) eqn:E4; [ apply Z.eqb_eq in E4; subst i; exfalso; apply Hi; auto 6 | ].
    reflexivity. }
  split.
  - intros a b. apply Halu.
  - intros oa ob H0 Hb H1 H2. apply run_raise.
    rewrite (cycle_alu_eq s i oa ob) by assumption.
    unfold bind. now rewrite Halu.
Qed.

(** The theorem for a memory that starts with 0xA4, an instruction with bit 5
    set that no ALU operation answers to. *)
Lemma unsupported_alu_operation_raises_witness :
  run 3 (boot [0xA4; 0; 1]) =
    (fetched (VInt 0xA4) (VInt 1) (boot [0xA4; 0; 1]),
     Some (Exception_ "Unsupported ALU operation")).
Proof.
  refine (proj2 (unsupported_alu_operation_raises (boot [0xA4; 0; 1]) 0xA4 2 _)
            (VInt 0) (VInt 1) eq_refl eq_refl eq_refl eq_refl).
  simpl. unfold ADD, SUB, MUL, DIV. lia.
Defined.

(** C5. DIV with the integer 0 in register [b] raises ZeroDivisionError,
    whatever register [a] holds, and changes nothing; the run loop that
    fetched the instruction ends in that cycle with this exception, PC not
    advanced and register [a] as it was. *)
Theorem div_by_zero_raises s a b x n :
  wf s -> 0 <= a < 8 -> 0 <= b < 8 ->
  reg s !! Z.to_nat a = Some x ->
  reg s !! Z.to_nat b = Some (VInt 0) ->
  alu (VInt DIV) (VInt a) (VInt b) s = (s, Raise ZeroDivisionError) /\
  (fetches s DIV ->
   Py.getitem (ram s) (pc s + 1) = Ok (VInt a) ->
   Py.getitem (ram s) (pc s + 2) = Ok (VInt b) ->
   run (S n) s = (fetched (VInt DIV) (VInt b) s, Some ZeroDivisionError)).
Proof.
  intros Hwf Ha Hb Hx Hy.
  assert (Hdiv : Py.truediv x (VInt 0) = Raise ZeroDivisionError).
  { destruct x as [z | f]; [ reflexivity | ].
    unfold Py.truediv, Py.float_binop. cbn [Py.as_double]. reflexivity. }
  assert (Halu : forall s1, wf s1 -> reg s1 = reg s ->
            alu (VInt DIV) (VInt a) (VInt b) s1 = (s1, Raise ZeroDivisionError)).
  { intros s1 Hwf1 Hr.
    change (alu (VInt DIV) (VInt a) (VInt b)) with (aug_assign Py.truediv (VInt a) (VInt b)).
    rewrite (aug_assign_eq Py.truediv a b x (VInt 0))
      by (apply register_getitem; try assumption; rewrite Hr; assumption).
    now rewrite Hdiv. }
  split.
  - now apply Halu.
  - intros H0 H1 H2. apply run_raise.
    rewrite (cycle_alu_eq s DIV (VInt a) (VInt b)) by first [ assumption | reflexivity ].
    unfold bind. rewrite Halu; [ reflexivity | exact Hwf | reflexivity ].
Qed.

(** The theorem for [LDI R0,5; DIV R0,R1] once LDI has run: R1 is still 0. *)
Lemma div_by_zero_raises_witness :
  run 4 (fst (cycle (boot [LDI; 0; 5; DIV; 0; 1]))) =
    (fetched (VInt DIV) (VInt 1) (fst (cycle (boot [LDI; 0; 5; DIV; 0; 1]))),
     Some ZeroDivisionError).
Proof.
  refine (proj2 (div_by_zero_raises (fst (cycle (boot [LDI; 0; 5; DIV; 0; 1])))
                   0 1 (VInt 5) 3 _ _ _ eq_refl eq_refl) eq_refl eq_refl eq_refl).
  - split; reflexivity.
  - lia.
  - lia.
Defined.

(** A float zero in register [b] (an earlier DIV must have put it there)
    makes DIV raise as well: ZeroDivisionError when the dividend converts to
    a float, the OverflowError of the conversion when it is an int too large
    for one. *)
Lemma div_by_float_zero_raises s a b x sign :
  wf s -> 0 <= a < 8 -> 0 <= b < 8 ->
  reg s !! Z.to_nat a = Some x ->
  reg s !! Z.to_nat b = Some (VFloat (S754_zero sign)) ->
  alu (VInt DIV) (VInt a) (VInt b) s =
  (s, Raise match Py.as_double x with
            | Ok _ => ZeroDivisionError
            | Raise e => e
            end).
Proof.
  intros Hwf Ha Hb Hx Hy.
  change (alu (VInt DIV) (VInt a) (VInt b)) with (aug_assign Py.truediv (VInt a) (VInt b)).
  rewrite (aug_assign_eq Py.truediv a b x (VFloat (S754_zero sign)))
    by (apply register_getitem; assumption).
  destruct x as [z | f]; unfold Py.truediv, Py.float_binop; cbn [Py.as_double].
  - destruct (Py.to_float z); reflexivity.
  - reflexivity.
Qed.

(** Whatever the two registers hold, DIV by a register that equals 0 does
    not return. *)
Lemma div_by_any_zero_raises s a b x y :
  wf s -> 0 <= a < 8 -> 0 <= b < 8 ->
  reg s !! Z.to_nat a = Some x ->
  reg s !! Z.to_nat b = Some y ->
  Py.is_zero y = true ->
  exists e,
    alu (VInt DIV) (VInt a) (VInt b) s = (s, Raise e) /\
    (e = ZeroDivisionError \/ e = OverflowError).
Proof.
  intros Hwf Ha Hb Hx Hy Hz.
  change (alu (VInt DIV) (VInt a) (VInt b)) with (aug_assign Py.truediv (VInt a) (VInt b)).
  rewrite (aug_assign_eq Py.truediv a b x y) by (apply register_getitem; assumption).
  destruct y as [z | f]; simpl in Hz.
  - apply Z.eqb_eq in Hz. subst z.
    destruct x as [z | f]; eexists; (split; [ reflexivity | left; reflexivity ]).
  - destruct f; try discriminate Hz.
    destruct x as [z | f]; unfold Py.truediv, Py.float_binop; cbn [Py.as_double].
    + unfold Py.to_float.
      destruct (binary_normalize Py.prec Py.emax z 0 false);
        eexists; (split; [ reflexivity | auto ]).
    + eexists. split; [ reflexivity | auto ].
Qed.

Example div_huge_by_float_zero :
  Py.truediv (VInt (255 ^ 256)) (VFloat (S754_zero false)) = Raise OverflowError.
Proof. vm_compute. reflexivity. Qed.

(** With one register as both operands, ADD changes register [b]: R0 holds 1
    before [ADD R0,R0] and 2 after it.  So it is not true that, for all
    register numbers [a] and [b], register [b] is left as it was. *)
Lemma alu_same_register_changes_b :
  (let s := set_reg (<[0%nat := VInt 1]> (reg init)) init in
   wf s /\ reg s !! 0%nat = Some (VInt 1) /\
   exists s',
     alu (VInt ADD) (VInt 0) (VInt 0) s = (s', Ok tt) /\
     reg s' !! 0%nat = Some (VInt 2)) /\
  ~ (forall s s' a b,
       wf s -> 0 <= a < 8 -> 0 <= b < 8 ->
       alu (VInt ADD) (VInt a) (VInt b) s = (s', Ok tt) ->
       reg s' !! Z.to_nat b = reg s !! Z.to_nat b).
Proof.
  split.
  - repeat split. eexists. split; reflexivity.
  - intros H.
    specialize (H (set_reg (<[0%nat := VInt 1]> (reg init)) init) _ 0 0
                  ltac:(split; reflexivity) ltac:(lia) ltac:(lia) eq_refl).
    discriminate H.
Qed.

(** C2, amended. With ints [x] and [y] in registers [a] and [b], ADD, SUB
    and MUL return and leave [x + y], [x - y] and [x * y] in register [a];
    every other register is as it was, so register [b] is whenever it is not
    register [a] itself; memory, PC and SP are as they were. *)
Theorem alu_arithmetic s a b x y op r :
  wf s -> 0 <= a < 8 -> 0 <= b < 8 ->
  reg s !! Z.to_nat a = Some (VInt x) ->
  reg s !! Z.to_nat b = Some (VInt y) ->
  In (op, r) [(ADD, x + y); (SUB, x - y); (MUL, x * y)] ->
  exists s',
    alu (VInt op) (VInt a) (VInt b) s = (s', Ok tt) /\
    reg s' !! Z.to_nat a = Some (VInt r) /\
    (forall j, j <> Z.to_nat a -> reg s' !! j = reg s !! j) /\
    (b <> a -> reg s' !! Z.to_nat b = Some (VInt y)) /\
    ram s' = ram s /\ pc s' = pc s /\ sp s' = sp s.
Proof.
  intros Hwf Ha Hb Hx Hy Hop.
  exists (set_reg (<[Z.to_nat a := VInt r]> (reg s)) s).
  assert (Halu : alu (VInt op) (VInt a) (VInt b) s
                 = (set_reg (<[Z.to_nat a := VInt r]> (reg s)) s, Ok tt)).
  { simpl in Hop. destruct Hop as [[= <- <-] | [[= <- <-] | [[= <- <-] | []]]].
    - now apply (alu_stores ADD Py.add s a b (VInt x) (VInt y)).
    - now apply (alu_stores SUB Py.sub s a b (VInt x) (VInt y)).
    - now apply (alu_stores MUL Py.mul s a b (VInt x) (VInt y)). }
  split; [ exact Halu | ]. cbn [set_reg reg ram pc sp].
  split; [ | split; [ | split ] ].
  - apply list_lookup_insert_eq. destruct Hwf as [_ Hreg]. rewrite Hreg. lia.
  - intros j Hj. apply list_lookup_insert_ne. congruence.
  - intros Hne. rewrite list_lookup_insert_ne by lia. exact Hy.
  - repeat split.
Qed.

(** The theorem for [MUL R0,R1] with 8 in R0 and 9 in R1. *)
Lemma alu_arithmetic_witness :
  exists s',
    alu (VInt MUL) (VInt 0) (VInt 1)
      (set_reg [VInt 8; VInt 9; VInt 0; VInt 0; VInt 0; VInt 0; VInt 0; VInt 0xF3] init)
    = (s', Ok tt) /\
    reg s' !! Z.to_nat 0 = Some (VInt 72) /\
    (forall j, j <> Z.to_nat 0 -> reg s' !! j =
       [VInt 8; VInt 9; VInt 0; VInt 0; VInt 0; VInt 0; VInt 0; VInt 0xF3] !! j) /\
    (1 <> 0 -> reg s' !! Z.to_nat 1 = Some (VInt 9)) /\
    ram s' = ram init /\ pc s' = pc init /\ sp s' = sp init.
Proof.
  refine (alu_arithmetic
            (set_reg [VInt 8; VInt 9; VInt 0; VInt 0; VInt 0; VInt 0; VInt 0; VInt 0xF3] init)
            0 1 8 9 MUL 72 _ _ _ eq_refl eq_refl _).
  - split; reflexivity.
  - lia.
  - lia.
  - simpl. right. right. left. reflexivity.
Defined.

(** The whole cycle of an ALU instruction on two int registers. *)
Lemma cycle_alu_arithmetic s a b x y op r :
  wf s -> 0 <= a < 8 -> 0 <= b < 8 ->
  reg s !! Z.to_nat a = Some (VInt x) ->
  reg s !! Z.to_nat b = Some (VInt y) ->
  In (op, r) [(ADD, x + y); (SUB, x - y); (MUL, x * y)] ->
  fetches s op ->
  Py.getitem (ram s) (pc s + 1) = Ok (VInt a) ->
  Py.getitem (ram s) (pc s + 2) = Ok (VInt b) ->
  cycle s =
  (set_pc (pc s + 3)
     (set_reg (<[Z.to_nat a := VInt r]> (reg s)) (fetched (VInt op) (VInt b) s)),
   Ok tt).
Proof.
  intros Hwf Ha Hb Hx Hy Hop H0 H1 H2.
  assert (Hbit : Z.testbit op 5 = true /\ num_operands op = 2).
  { simpl in Hop. destruct Hop as [[= <- _] | [[= <- _] | [[= <- _] | []]]];
      split; reflexivity. }
  destruct Hbit as [Hbit Hn].
  rewrite (cycle_alu_eq s op (VInt a) (VInt b)) by assumption.
  assert (Halu : alu (VInt op) (VInt a) (VInt b) (fetched (VInt op) (VInt b) s)
                 = (set_reg (<[Z.to_nat a := VInt r]> (reg s))
                      (fetched (VInt op) (VInt b) s), Ok tt)).
  { simpl in Hop. destruct Hop as [[= <- <-] | [[= <- <-] | [[= <- <-] | []]]].
    - apply (alu_stores ADD Py.add (fetched (VInt ADD) (VInt b) s) a b (VInt x) (VInt y));
        first [ assumption | reflexivity ].
    - apply (alu_stores SUB Py.sub (fetched (VInt SUB) (VInt b) s) a b (VInt x) (VInt y));
        first [ assumption | reflexivity ].
    - apply (alu_stores MUL Py.mul (fetched (VInt MUL) (VInt b) s) a b (VInt x) (VInt y));
        first [ assumption | reflexivity ]. }
  unfold bind. rewrite Halu. unfold advance, modify. rewrite Hn. reflexivity.
Qed.

(** ** LDI *)

(** C4. With register number [i] (0 to 7) in the cell at PC+1 and [v] in the
    cell at PC+2, [handle_ldi] returns and leaves [v] in register [i]; every
    other register and the whole memory are as they were, and so are PC and
    SP. *)
Theorem ldi_sets_register s i v :
  wf s -> 0 <= i < 8 ->
  Py.getitem (ram s) (pc s + 1) = Ok (VInt i) ->
  Py.getitem (ram s) (pc s + 2) = Ok v ->
  exists s',
    handle_ldi s = (s', Ok tt) /\
    reg s' !! Z.to_nat i = Some v /\
    (forall j, j <> Z.to_nat i -> reg s' !! j = reg s !! j) /\
    ram s' = ram s /\ pc s' = pc s /\ sp s' = sp s.
Proof.
  intros Hwf Hi H1 H2.
  exists (set_reg (<[Z.to_nat i := v]> (reg s)) (set_mdr (Some v) (set_mar (pc s + 2) s))).
  split.
  - rewrite handle_ldi_eq, H1, H2, reg_set_eq. cbn [Py.subscript].
    rewrite register_setitem; [ reflexivity | exact Hwf | exact Hi ].
  - cbn [set_reg set_mdr set_mar reg ram pc sp]. split; [ | split ].
    + apply list_lookup_insert_eq. destruct Hwf as [_ Hreg]. rewrite Hreg. lia.
    + intros j Hj. apply list_lookup_insert_ne. congruence.
    + repeat split.
Qed.

(** The theorem for [LDI R0,8] in a freshly loaded machine. *)
Lemma ldi_sets_register_witness :
  exists s',
    handle_ldi (boot [LDI; 0; 8; HLT]) = (s', Ok tt) /\
    reg s' !! Z.to_nat 0 = Some (VInt 8) /\
    (forall j, j <> Z.to_nat 0 -> reg s' !! j = reg (boot [LDI; 0; 8; HLT]) !! j) /\
    ram s' = ram (boot [LDI; 0; 8; HLT]) /\
    pc s' = pc (boot [LDI; 0; 8; HLT]) /\ sp s' = sp (boot [LDI; 0; 8; HLT]).
Proof.
  refine (ldi_sets_register (boot [LDI; 0; 8; HLT]) 0 (VInt 8) _ _ eq_refl eq_refl).
  - split; reflexivity.
  - lia.
Defined.


(** ** The stack *)

Lemma getitem_setitem {A} (l l' : list A) i x :
  Py.setitem l i x = Ok l' -> Py.getitem l' i = Ok x.
Proof.
  intros H. apply setitem_Ok in H as [Hr ->].
  apply getitem_lookup; rewrite length_insert; [ exact Hr | ].
  apply list_lookup_insert_eq.
  pose proof (Z.mod_pos_bound i (Z.of_nat (length l))). lia.
Qed.

Lemma core_eq s s' :
  core s' = core s ->
  ram s' = ram s /\ reg s' = reg s /\ pc s' = pc s /\ sp s' = sp s.
Proof. unfold core. intros [= -> -> -> ->]. repeat split. Qed.

(** A completed cycle of a branch-table instruction: its handler was called
    on the memory, registers, PC and SP the cycle started with, returned, and
    PC was advanced. *)
Lemma cycle_handler_inv s s' i h :
  fetches s i -> Z.testbit i 5 = false ->
  dict_get branchtable (VInt i) = Ok h ->
  cycle s = (s', Ok tt) ->
  exists s1 s2,
    core s1 = core s /\ h s1 = (s2, Ok tt) /\
    s' = set_pc (pc s2 + (num_operands i + 1)) s2.
Proof.
  intros H0 Hb Hd Hc.
  destruct (cycle_Ok_fetch _ _ Hc) as (i' & oa & ob & H0' & H1 & H2).
  unfold fetches in H0. rewrite H0 in H0'. injection H0' as <-.
  rewrite (cycle_eq s i oa ob H0 H1 H2), alu_bit, Hb in Hc.
  cbn [Z.b2z Z.eqb negb] in Hc.
  apply bind_Ok_inv in Hc as (s2 & [] & Hx & Ha).
  apply bind_Ok_inv in Hx as (s1 & [] & Ht & Hx).
  unfold bind, lift in Hx. rewrite Hd in Hx.
  exists s1, s2. split; [ | split ].
  - pose proof (keeps_trace core ltac:(reflexivity) ltac:(reflexivity)
                  ltac:(reflexivity) (fetched (VInt i) ob s)) as Hk.
    rewrite Ht in Hk. exact Hk.
  - exact Hx.
  - unfold advance, modify in Ha. now injection Ha as <-.
Qed.

Lemma handle_push_inv s s' :
  handle_push s = (s', Ok tt) ->
  exists v,
    operand_register s s = Ok v /\
    Py.setitem (ram s) (sp s - 1) v = Ok (ram s') /\
    reg s' = reg s /\ sp s' = sp s - 1 /\ pc s' = pc s.
Proof.
  rewrite handle_push_eq. cbv zeta. unfold operand_register.
  destruct (Py.getitem (ram s) (pc s + 1)) as [register | e]; [ | discriminate ].
  destruct (Py.subscript register) as [i | e]; [ | discriminate ].
  destruct (Py.getitem (reg s) i) as [v | e]; [ | discriminate ].
  rewrite ram_write_eq. cbn [set_mdr set_mar set_sp ram].
  destruct (Py.setitem (ram s) (sp s - 1) v) as [cells | e] eqn:E; [ | discriminate ].
  intros [= <-]. exists v. repeat split. exact E.
Qed.

Lemma handle_pop_inv s s' :
  handle_pop s = (s', Ok tt) ->
  exists v,
    Py.getitem (ram s) (sp s) = Ok v /\
    operand_register s s' = Ok v /\
    ram s' = ram s /\ sp s' = sp s + 1 /\ pc s' = pc s /\
    length (reg s') = length (reg s).
Proof.
  rewrite handle_pop_eq. unfold operand_register.
  destruct (Py.getitem (ram s) (sp s)) as [v | e]; [ | discriminate ].
  destruct (Py.getitem (ram s) (pc s + 1)) as [register | e]; [ | discriminate ].
  cbv zeta.
  destruct (Py.subscript register) as [i | e]; [ | discriminate ].
  destruct (Py.setitem (reg s) i v) as [regs | e] eqn:E; [ | discriminate ].
  intros [= <-]. exists v. cbn [set_sp set_reg set_mdr set_mar ram reg sp pc].
  repeat split.
  - now apply getitem_setitem in E.
  - apply setitem_Ok in E as [_ ->]. apply length_insert.
Qed.

(** A completed PUSH cycle. *)
Lemma cycle_push_inv s s' :
  wf s -> fetches s PUSH -> cycle s = (s', Ok tt) ->
  exists v,
    operand_register s s = Ok v /\
    -256 <= sp s - 1 <= 255 /\
    ram s' = <[Z.to_nat ((sp s - 1) mod 256) := v]> (ram s) /\
    reg s' = reg s /\ sp s' = sp s - 1 /\ pc s' = pc s + 2 /\
    -256 <= pc s <= 253.
Proof.
  intros [Hram Hreg] H0 Hc.
  destruct (cycle_Ok_fetch _ _ Hc) as (i0 & oa & ob & Hf & _ & H2).
  apply getitem_Ok in Hf as [Hf _]. apply getitem_Ok in H2 as [H2 _].
  rewrite Hram in Hf, H2.
  destruct (cycle_handler_inv s s' PUSH handle_push H0 eq_refl eq_refl Hc)
    as (s1 & s2 & Hcore & Hh & ->).
  apply core_eq in Hcore as (Er & Eg & Ep & Es).
  apply handle_push_inv in Hh as (v & Hv & Hw & Hg & Hs & Hp).
  unfold operand_register in Hv. rewrite Er, Eg, Ep in Hv.
  rewrite Er, Es in Hw. apply setitem_Ok in Hw as [Hrange Hw].
  rewrite Hram in Hrange, Hw.
  exists v. cbn [set_pc ram reg sp pc]. rewrite Hw, Hg, Eg, Hs, Es, Hp, Ep.
  change (num_operands PUSH + 1) with 2.
  repeat split; try lia. exact Hv.
Qed.

(** A completed POP cycle. *)
Lemma cycle_pop_inv s s' :
  wf s -> fetches s POP -> cycle s = (s', Ok tt) ->
  exists v,
    Py.getitem (ram s) (sp s) = Ok v /\
    operand_register s s' = Ok v /\
    ram s' = ram s /\ sp s' = sp s + 1 /\ pc s' = pc s + 2 /\
    length (reg s') = length (reg s).
Proof.
  intros [Hram Hreg] H0 Hc.
  destruct (cycle_handler_inv s s' POP handle_pop H0 eq_refl eq_refl Hc)
    as (s1 & s2 & Hcore & Hh & ->).
  apply core_eq in Hcore as (Er & Eg & Ep & Es).
  apply handle_pop_inv in Hh as (v & Hv & Ho & Hr & Hs & Hp & Hl).
  unfold operand_register in Ho. rewrite Er, Ep in Ho.
  rewrite Er, Es in Hv.
  exists v. cbn [set_pc ram reg sp pc]. rewrite Hr, Er, Hs, Es, Hp, Ep, Hl, Eg.
  change (num_operands POP + 1) with 2.
  repeat split; try lia; assumption.
Qed.

(** Two addresses less than 256 apart name different cells. *)
Lemma cells_apart x d :
  0 < d < 256 -> Z.to_nat ((x - d) mod 256) <> Z.to_nat (x mod 256).
Proof.
  intros Hd H.
  pose proof (Z.mod_pos_bound x 256 ltac:(lia)).
  pose proof (Z.mod_pos_bound (x - d) 256 ltac:(lia)).
  apply Z2Nat.inj in H; [ | lia | lia ].
  pose proof (Z.div_mod x 256 ltac:(lia)).
  pose proof (Z.div_mod (x - d) 256 ltac:(lia)).
  lia.
Qed.

(** What a run of PUSH cycles does: SP goes down by their number, the
    registers stay, the values lie below the former SP in the order they
    were pushed, and the other cells stay.  There are fewer than 128 of them,
    as each takes two bytes of a memory the operand reads must stay within. *)
Lemma push_steps_spec s vs s' :
  wf s -> push_steps s vs s' ->
  wf s' /\
  sp s' = sp s - Z.of_nat (length vs) /\
  pc s' = pc s + 2 * Z.of_nat (length vs) /\
  reg s' = reg s /\
  (vs <> [] -> -256 <= pc s /\ pc s + 2 * Z.of_nat (length vs) <= 255) /\
  (forall k v, vs !! k = Some v ->
     Py.getitem (ram s') (sp s - 1 - Z.of_nat k) = Ok v) /\
  (forall p,
     (forall k, (k < length vs)%nat ->
        Z.to_nat ((sp s - 1 - Z.of_nat k) mod 256) <> p) ->
     ram s' !! p = ram s !! p).
Proof.
  intros Hwf Hsteps. induction Hsteps as [s | s s1 s' v vs H0 Hop Hc Hrest IH].
  - simpl. repeat split; try apply Hwf; try lia; try congruence.
    intros k v Hk. rewrite lookup_nil in Hk. discriminate.
  - destruct (cycle_push_inv s s1 Hwf H0 Hc)
      as (v' & Hv & Hsp & Hram1 & Hreg1 & Hsp1 & Hpc1 & Hpc).
    rewrite Hop in Hv. injection Hv as <-.
    assert (Hwf1 : wf s1).
    { destruct Hwf as [Hr Hg]. split; [ | congruence ].
      rewrite Hram1, length_insert. exact Hr. }
    destruct (IH Hwf1) as (Hwf' & Hsp' & Hpc' & Hreg' & Hb' & Hget' & Hframe').
    assert (Hlen : Z.of_nat (length vs) < 256).
    { destruct vs as [ | w vs0]; [ simpl; lia | ].
      destruct Hb' as [_ Hb']; [ discriminate | ]. lia. }
    cbn [length]. rewrite Nat2Z.inj_succ.
    split; [ exact Hwf' | ].
    split; [ lia | ]. split; [ lia | ]. split; [ congruence | ].
    split; [ | split ].
    + intros _. split; [ lia | ].
      destruct vs as [ | w vs0]; [ simpl; lia | ].
      destruct Hb' as [_ Hb']; [ discriminate | ]. lia.
    + intros [ | k] w Hk.
      * simpl in Hk. injection Hk as <-.
        destruct Hwf' as [Hram' _].
        apply getitem_lookup; rewrite Hram'; [ simpl; lia | ].
        change (Z.of_nat 256) with 256. change (Z.of_nat 0) with 0.
        rewrite Z.sub_0_r.
        rewrite Hframe'.
        -- rewrite Hram1. apply list_lookup_insert_eq.
           destruct Hwf as [Hr _]. rewrite Hr.
           pose proof (Z.mod_pos_bound (sp s - 1) 256 ltac:(lia)). lia.
        -- intros k Hk. rewrite Hsp1.
           replace (sp s - 1 - 1 - Z.of_nat k) with (sp s - 1 - (Z.of_nat k + 1)) by lia.
           apply cells_apart. lia.
      * simpl in Hk. apply Hget' in Hk. rewrite Hsp1 in Hk.
        replace (sp s - 1 - Z.of_nat (S k)) with (sp s - 1 - 1 - Z.of_nat k) by lia.
        exact Hk.
    + intros p Hp. rewrite Hframe'.
      * rewrite Hram1. apply list_lookup_insert_ne.
        specialize (Hp 0%nat ltac:(lia)). simpl in Hp.
        now rewrite Z.sub_0_r in Hp.
      * intros k Hk. rewrite Hsp1.
        specialize (Hp (S k) ltac:(lia)).
        replace (sp s - 1 - 1 - Z.of_nat k) with (sp s - 1 - Z.of_nat (S k)) by lia.
        exact Hp.
Qed.

(** What a run of POP cycles does: memory stays, SP goes up by their number,
    and the values popped are those of the cells from the former SP upwards. *)
Lemma pop_steps_spec s vs s' :
  wf s -> pop_steps s vs s' ->
  wf s' /\
  ram s' = ram s /\
  sp s' = sp s + Z.of_nat (length vs) /\
  pc s' = pc s + 2 * Z.of_nat (length vs) /\
  (forall k v, vs !! k = Some v ->
     Py.getitem (ram s) (sp s + Z.of_nat k) = Ok v).
Proof.
  intros Hwf Hsteps. induction Hsteps as [s | s s1 s' v vs H0 Hc Hop Hrest IH].
  - simpl. repeat split; try apply Hwf; try lia.
    intros k v Hk. rewrite lookup_nil in Hk. discriminate.
  - destruct (cycle_pop_inv s s1 Hwf H0 Hc)
      as (v' & Hv & Hv' & Hram1 & Hsp1 & Hpc1 & Hlen1).
    rewrite Hop in Hv'. injection Hv' as <-.
    assert (Hwf1 : wf s1).
    { destruct Hwf as [Hr Hg]. split; congruence. }
    destruct (IH Hwf1) as (Hwf' & Hram' & Hsp' & Hpc' & Hget').
    cbn [length]. rewrite Nat2Z.inj_succ.
    split; [ exact Hwf' | ]. split; [ congruence | ].
    split; [ lia | ]. split; [ lia | ].
    intros [ | k] w Hk.
    + simpl in Hk. injection Hk as <-. simpl. now rewrite Z.add_0_r.
    + simpl in Hk. apply Hget' in Hk. rewrite Hram1, Hsp1 in Hk.
      replace (sp s + Z.of_nat (S k)) with (sp s + 1 + Z.of_nat k) by lia.
      exact Hk.
Qed.

(** The two runs one after the other. *)
Lemma push_pop_steps s s1 s2 pushed popped :
  wf s ->
  push_steps s pushed s1 ->
  pop_steps s1 popped s2 ->
  length popped = length pushed ->
  sp s2 = sp s /\ popped = reverse pushed.
Proof.
  intros Hwf Hpush Hpop Hlen.
  destruct (push_steps_spec _ _ _ Hwf Hpush)
    as (Hwf1 & Hsp1 & _ & _ & _ & Hget1 & _).
  destruct (pop_steps_spec _ _ _ Hwf1 Hpop) as (_ & _ & Hsp2 & _ & Hget2).
  split; [ lia | ].
  apply list_eq. intros k.
  destruct (popped !! k) as [w | ] eqn:Ek.
  - apply lookup_lt_Some in Ek as Hk.
    rewrite reverse_lookup by lia.
    destruct (pushed !! (length pushed - S k)%nat) as [v | ] eqn:Ev.
    + apply Hget2 in Ek. apply Hget1 in Ev.
      replace (sp s - 1 - Z.of_nat (length pushed - S k)) with (sp s1 + Z.of_nat k) in Ev by lia.
      congruence.
    + apply lookup_ge_None in Ev. lia.
  - apply lookup_ge_None in Ek. symmetry. apply lookup_ge_None.
    rewrite length_reverse. lia.
Qed.

(** The two handlers called one after the other, PC not moving in between:
    SP is back and the register POP names holds what PUSH took from the
    register it named. *)
Lemma handle_push_pop s s1 s2 :
  handle_push s = (s1, Ok tt) ->
  handle_pop s1 = (s2, Ok tt) ->
  sp s2 = sp s /\ operand_register s1 s2 = operand_register s s.
Proof.
  intros Hpush Hpop.
  apply handle_push_inv in Hpush as (v & Hv & Hw & _ & Hs & _).
  apply handle_pop_inv in Hpop as (v' & Hr & Hv' & _ & Hs' & _).
  apply getitem_setitem in Hw. rewrite Hs in Hr.
  split; [ lia | congruence ].
Qed.

(** ** PUSH, POP and PRN cycles that run to completion *)

Lemma handle_prn_eq s :
  handle_prn s =
  match Py.getitem (ram s) (pc s + 1) with
  | Raise e => (set_mar (pc s + 1) s, Raise e)
  | Ok register =>
      let s1 := set_mdr (Some register) (set_mar (pc s + 1) s) in
      match Py.subscript register with
      | Raise e => (s1, Raise e)
      | Ok i =>
          match Py.getitem (reg s) i with
          | Raise e => (s1, Raise e)
          | Ok v => (set_stdout (stdout s ++ [OutValue v]) s1, Ok tt)
          end
      end
  end.
Proof.
  unfold handle_prn.
  unfold bind at 1. unfold gets at 1.
  unfold bind at 1. rewrite ram_read_eq.
  destruct (Py.getitem (ram s) (pc s + 1)) as [register | e]; [ | reflexivity ].
  unfold bind at 1. rewrite reg_get_eq. cbn [set_mdr set_mar reg].
  destruct (Py.subscript register) as [i | e]; [ | reflexivity ].
  destruct (Py.getitem (reg s) i) as [v | e]; reflexivity.
Qed.


Lemma cycle_push s r x2 rs v :
  wf s -> fetches s PUSH ->
  Py.getitem (ram s) (pc s + 1) = Ok (VInt r) ->
  Py.getitem (ram s) (pc s + 2) = Ok (VInt x2) ->
  reg s = map VInt rs -> length rs = 8%nat ->
  0 <= r < 8 -> reg s !! Z.to_nat r = Some v ->
  -256 <= sp s - 1 <= 255 ->
  exists s',
    cycle s = (s', Ok tt) /\
    ram s' = <[Z.to_nat ((sp s - 1) mod 256) := v]> (ram s) /\
    reg s' = reg s /\ pc s' = pc s + 2 /\ sp s' = sp s - 1.
Proof.
  intros Hwf H0 H1 H2 Hr Hl Hi Hv Hsp.
  rewrite (cycle_handler_eq s PUSH r x2 rs) by first [ assumption | reflexivity ].
  unfold bind at 1. unfold bind at 1. unfold lift at 1.
  change (dict_get branchtable (VInt PUSH)) with (Ok handle_push). cbv iota beta.
  rewrite handle_push_eq.
  cbn [traced fetched set_stdout set_mdr set_mar set_ir ram reg pc sp].
  rewrite H1. cbv zeta. cbn [Py.subscript].
  rewrite (register_getitem s r v Hwf Hi Hv).
  rewrite ram_write_eq. cbn [traced fetched set_sp set_stdout set_mdr set_mar set_ir ram].
  destruct Hwf as [Hram _].
  rewrite setitem_in_range by (rewrite Hram; lia). rewrite Hram.
  eexists. split; [ reflexivity | ].
  cbn [advance modify traced fetched set_pc set_ram set_sp set_stdout set_mdr
         set_mar set_ir ram reg pc sp].
  repeat split.
Qed.

Lemma cycle_pop s r x2 rs v :
  wf s -> fetches s POP ->
  Py.getitem (ram s) (pc s + 1) = Ok (VInt r) ->
  Py.getitem (ram s) (pc s + 2) = Ok (VInt x2) ->
  reg s = map VInt rs -> length rs = 8%nat ->
  0 <= r < 8 ->
  Py.getitem (ram s) (sp s) = Ok v ->
  exists s',
    cycle s = (s', Ok tt) /\
    reg s' = <[Z.to_nat r := v]> (reg s) /\
    ram s' = ram s /\ pc s' = pc s + 2 /\ sp s' = sp s + 1.
Proof.
  intros Hwf H0 H1 H2 Hr Hl Hi Hv.
  rewrite (cycle_handler_eq s POP r x2 rs) by first [ assumption | reflexivity ].
  unfold bind at 1. unfold bind at 1. unfold lift at 1.
  change (dict_get branchtable (VInt POP)) with (Ok handle_pop). cbv iota beta.
  rewrite handle_pop_eq.
  cbn [traced fetched set_stdout set_mdr set_mar set_ir ram reg pc sp].
  rewrite Hv, H1. cbv zeta. cbn [Py.subscript].
  rewrite (register_setitem s r v Hwf Hi).
  eexists. split; [ reflexivity | ].
  cbn [advance modify traced fetched set_pc set_reg set_sp set_stdout set_mdr
         set_mar set_ir ram reg pc sp].
  repeat split.
Qed.

Lemma getitem_insert_ne {A} (l : list A) n x i :
  0 <= i < Z.of_nat (length l) -> n <> Z.to_nat i ->
  Py.getitem (<[n := x]> l) i = Py.getitem l i.
Proof.
  intros Hi Hn. unfold Py.getitem. rewrite length_insert.
  rewrite index_of_nonneg by exact Hi.
  now rewrite list_lookup_insert_ne.
Qed.

(** PUSH of a register directly followed by POP, the stack lying above the
    five bytes of the two instructions: both cycles run to completion. *)
Lemma push_pop_cycles s r1 r2 x rs v :
  wf s ->
  fetches s PUSH ->
  Py.getitem (ram s) (pc s + 1) = Ok (VInt r1) ->
  Py.getitem (ram s) (pc s + 2) = Ok (VInt POP) ->
  Py.getitem (ram s) (pc s + 3) = Ok (VInt r2) ->
  Py.getitem (ram s) (pc s + 4) = Ok (VInt x) ->
  reg s = map VInt rs -> length rs = 8%nat ->
  0 <= r1 < 8 -> 0 <= r2 < 8 ->
  reg s !! Z.to_nat r1 = Some v ->
  0 <= pc s -> pc s + 4 < sp s - 1 -> sp s - 1 <= 255 ->
  exists s1 s2,
    cycle s = (s1, Ok tt) /\ cycle s1 = (s2, Ok tt) /\
    sp s1 = sp s - 1 /\ ram s1 !! Z.to_nat (sp s - 1) = Some v /\
    sp s2 = sp s /\ reg s2 !! Z.to_nat r2 = Some v.
Proof.
  intros Hwf H0 H1 H2 H3 H4 Hr Hl Hr1 Hr2 Hv Hpc Hgap Hsp.
  destruct (cycle_push s r1 POP rs v) as (s1 & Hc1 & Hram1 & Hreg1 & Hpc1 & Hsp1);
    try assumption; [ lia | ].
  rewrite Z.mod_small in Hram1 by lia.
  destruct Hwf as [Hram Hreg].
  assert (Hwf1 : wf s1).
  { split; [ rewrite Hram1, length_insert; exact Hram | congruence ]. }
  assert (Hcell : ram s1 !! Z.to_nat (sp s - 1) = Some v).
  { rewrite Hram1. apply list_lookup_insert_eq. rewrite Hram. lia. }
  assert (Hkeep : forall d u, 2 <= d <= 4 ->
            Py.getitem (ram s) (pc s + d) = Ok u ->
            Py.getitem (ram s1) (pc s + d) = Ok u).
  { intros d u Hd Hu. rewrite Hram1, getitem_insert_ne; [ exact Hu | rewrite Hram; lia | lia ]. }
  destruct (cycle_pop s1 r2 x rs v) as (s2 & Hc2 & Hreg2 & _ & _ & Hsp2);
    try assumption.
  - unfold fetches. rewrite Hpc1. apply Hkeep; [ lia | exact H2 ].
  - rewrite Hpc1. replace (pc s + 2 + 1) with (pc s + 3) by lia.
    apply Hkeep; [ lia | exact H3 ].
  - rewrite Hpc1. replace (pc s + 2 + 2) with (pc s + 4) by lia.
    apply Hkeep; [ lia | exact H4 ].
  - congruence.
  - rewrite Hsp1. apply getitem_lookup.
    + destruct Hwf1 as [Hram1' _]. rewrite Hram1'. lia.
    + destruct Hwf1 as [Hram1' _]. rewrite Hram1'.
      change (Z.of_nat 256) with 256. now rewrite Z.mod_small by lia.
  - exists s1, s2. repeat split; try assumption; try lia.
    rewrite Hreg2. apply list_lookup_insert_eq. rewrite Hreg1, Hreg. lia.
Qed.

(** C3. After as many PUSH cycles as there are values in [pushed], each
    writing the register it names below SP, and as many POP cycles, each
    reading the cell at SP into the register it names, SP is what it was and
    the values the POPs left in their registers are the pushed ones, last
    pushed first.  And a PUSH directly followed by a POP, with the stack
    above the two instructions and ints in the registers, does run to
    completion: SP goes down by one and the value of the register pushed lies
    at SP, then SP is back and the register popped holds that value. *)
Theorem push_pop_lifo s :
  wf s ->
  (forall s1 s2 pushed popped,
     push_steps s pushed s1 ->
     pop_steps s1 popped s2 ->
     length popped = length pushed ->
     sp s2 = sp s /\ popped = reverse pushed) /\
  (forall r1 r2 x rs v,
     fetches s PUSH ->
     Py.getitem (ram s) (pc s + 1) = Ok (VInt r1) ->
     Py.getitem (ram s) (pc s + 2) = Ok (VInt POP) ->
     Py.getitem (ram s) (pc s + 3) = Ok (VInt r2) ->
     Py.getitem (ram s) (pc s + 4) = Ok (VInt x) ->
     reg s = map VInt rs -> length rs = 8%nat ->
     0 <= r1 < 8 -> 0 <= r2 < 8 ->
     reg s !! Z.to_nat r1 = Some v ->
     0 <= pc s -> pc s + 4 < sp s - 1 -> sp s - 1 <= 255 ->
     exists s1 s2,
       cycle s = (s1, Ok tt) /\ cycle s1 = (s2, Ok tt) /\
       sp s1 = sp s - 1 /\ ram s1 !! Z.to_nat (sp s - 1) = Some v /\
       sp s2 = sp s /\ reg s2 !! Z.to_nat r2 = Some v).
Proof.
  intros Hwf. split.
  - intros s1 s2 pushed popped. now apply push_pop_steps.
  - intros r1 r2 x rs v. now apply push_pop_cycles.
Qed.

(** The theorem for [stack_demo]: the two PUSH cycles are the third and the
    fourth of the run, the two POP cycles the fifth and the sixth; PUSH R1
    and POP R2 follow each other. *)
Lemma push_pop_lifo_witness :
  (sp (fst (run 6 (boot stack_demo))) = sp (fst (run 2 (boot stack_demo))) /\
   [VInt 7; VInt 5] = reverse [VInt 5; VInt 7]) /\
  (exists s1 s2,
     cycle (fst (run 3 (boot stack_demo))) = (s1, Ok tt) /\
     cycle s1 = (s2, Ok tt) /\
     sp s1 = sp (fst (run 3 (boot stack_demo))) - 1 /\
     ram s1 !! Z.to_nat (sp (fst (run 3 (boot stack_demo))) - 1) = Some (VInt 7) /\
     sp s2 = sp (fst (run 3 (boot stack_demo))) /\
     reg s2 !! Z.to_nat 2 = Some (VInt 7)).
Proof.
  split.
  - refine (proj1 (push_pop_lifo (fst (run 2 (boot stack_demo))) _)
              (fst (run 4 (boot stack_demo))) (fst (run 6 (boot stack_demo)))
              [VInt 5; VInt 7] [VInt 7; VInt 5] _ _ eq_refl).
    + split; vm_compute; reflexivity.
    + apply (push_next _ (fst (run 3 (boot stack_demo)))); try (vm_compute; reflexivity).
      apply (push_next _ (fst (run 4 (boot stack_demo)))); try (vm_compute; reflexivity).
      apply push_done.
    + apply (pop_next _ (fst (run 5 (boot stack_demo)))); try (vm_compute; reflexivity).
      apply (pop_next _ (fst (run 6 (boot stack_demo)))); try (vm_compute; reflexivity).
      apply pop_done.
  - refine (proj2 (push_pop_lifo (fst (run 3 (boot stack_demo))) _)
              1 2 POP [5; 7; 0; 0; 0; 0; 0; 0xF3] (VInt 7) _ _ _ _ _ _ eq_refl _ _ _ _ _ _);
      try (vm_compute; reflexivity); try (split; vm_compute; reflexivity);
      try (vm_compute; discriminate); try lia.
Defined.

(** ** The shape of the object is invariant *)

Section Preserves.
Context (P : CPU -> Prop).

Lemma preserves_ret {A} (a : A) : preserves P (ret a).
Proof. intros s H. exact H. Qed.

Lemma preserves_raise {A} e : preserves P (@raise A e).
Proof. intros s H. exact H. Qed.

Lemma preserves_lift {A} (r : result A) : preserves P (lift r).
Proof. intros s H. exact H. Qed.

Lemma preserves_gets {A} (g : CPU -> A) : preserves P (gets g).
Proof. intros s H. exact H. Qed.

Lemma preserves_modify g : (forall s, P s -> P (g s)) -> preserves P (modify g).
Proof. intros H s Hs. now apply H. Qed.

Lemma preserves_bind {A C} (m : M A) (k : A -> M C) :
  preserves P m -> (forall a, preserves P (k a)) -> preserves P (bind m k).
Proof.
  intros Hm Hk s Hs. unfold bind. specialize (Hm s Hs).
  destruct (m s) as [s1 [a | e]]; simpl in *.
  - now apply Hk.
  - exact Hm.
Qed.

Lemma preserves_for_each {A} (xs : list A) body :
  (forall x, preserves P (body x)) -> preserves P (for_each xs body).
Proof.
  intros H. induction xs as [ | x xs IH]; simpl.
  - apply preserves_ret.
  - apply preserves_bind; [ apply H | intros _; exact IH ].
Qed.

Lemma preserves_if {A} (b : bool) (m1 m2 : M A) :
  preserves P m1 -> preserves P m2 -> preserves P (if b then m1 else m2).
Proof. destruct b; auto. Qed.

End Preserves.

Lemma wf_reg_set r v : preserves wf (reg_set r v).
Proof.
  intros s [Hram Hreg]. rewrite reg_set_eq.
  destruct (Py.subscript r) as [i | e]; [ | now split ].
  destruct (Py.setitem (reg s) i v) as [regs | e] eqn:E; [ | now split ].
  apply setitem_Ok in E as [_ ->]. split; [ exact Hram | ].
  cbn [fst set_reg reg]. now rewrite length_insert.
Qed.

Lemma wf_ram_write address v : preserves wf (ram_write address v).
Proof.
  intros s [Hram Hreg]. rewrite ram_write_eq.
  destruct (Py.setitem (ram s) address v) as [cells | e] eqn:E; [ | now split ].
  apply setitem_Ok in E as [_ ->]. split; [ | exact Hreg ].
  cbn [fst set_ram ram]. now rewrite length_insert.
Qed.

(** Splits a method into its statements, by the shape of the method. *)
Ltac wf_step :=
  lazymatch goal with
  | |- preserves _ (ret _) => apply preserves_ret
  | |- preserves _ (raise _) => apply preserves_raise
  | |- preserves _ (lift _) => apply preserves_lift
  | |- preserves _ (gets _) => apply preserves_gets
  | |- preserves _ (bind _ _) => apply preserves_bind; [ | intros ? ]
  | |- preserves _ (for_each _ _) => apply preserves_for_each; intros ?
  | |- preserves _ (if _ then _ else _) => apply preserves_if
  | |- preserves _ (reg_set _ _) => apply wf_reg_set
  | |- preserves _ (ram_write _ _) => apply wf_ram_write
  | |- preserves _ (print _) => unfold print
  | |- preserves _ (reg_get _) => unfold reg_get
  | |- preserves _ (ram_read _) => unfold ram_read
  | |- preserves _ (modify _) =>
      apply preserves_modify; intros ? [? ?]; split; assumption
  end.

Lemma wf_handler op h : dict_get branchtable op = Ok h -> preserves wf h.
Proof.
  assert (Hall : Forall (fun kh => preserves wf (snd kh)) branchtable).
  { unfold branchtable.
    constructor; [ | constructor; [ | constructor; [ | constructor;
      [ | constructor; [ | constructor ] ] ] ] ];
      cbn [snd];
      unfold handle_hlt, handle_ldi, handle_prn, handle_push, handle_pop;
      repeat wf_step. }
  induction Hall as [ | [k x] d Hx Hd IH]; simpl; [ discriminate | ].
  destruct (Py.eq_int op k); [ now intros [= <-] | exact IH ].
Qed.

Lemma wf_dispatch op :
  preserves wf (bind (lift (dict_get branchtable op)) (fun handler => handler)).
Proof.
  intros s Hs. unfold bind, lift.
  destruct (dict_get branchtable op) as [h | e] eqn:E; [ | exact Hs ].
  now apply (wf_handler op h E).
Qed.

Lemma wf_cycle : preserves wf cycle.
Proof.
  unfold cycle, alu, aug_assign, trace.
  repeat lazymatch goal with
         | |- preserves _ (bind (lift (dict_get _ _)) _) => apply wf_dispatch
         | |- _ => wf_step
         end.
Qed.

(** Every object [run] goes through, starting from a freshly built and
    loaded machine, has 256 memory cells and 8 registers. *)
Lemma wf_init : wf init.
Proof. split; reflexivity. Qed.

Lemma wf_boot image : wf (boot image).
Proof.
  unfold boot. generalize wf_init. generalize init.
  change (preserves wf (load image)). unfold load.
  apply preserves_for_each. intros b.
  intros s [Hram Hreg]. unfold bind, gets, lift, modify.
  destruct (Py.setitem (ram s) (mar s) (VInt b)) as [cells | e] eqn:E; [ | now split ].
  apply setitem_Ok in E as [_ ->]. split; [ | exact Hreg ].
  cbn [fst set_mar set_ram ram]. now rewrite length_insert.
Qed.

Lemma wf_run n s : wf s -> wf (fst (run n s)).
Proof.
  revert s. induction n as [ | n IH]; intros s Hs; simpl; [ exact Hs | ].
  pose proof (wf_cycle s Hs) as Hc.
  destruct (cycle s) as [s' [[] | e]]; simpl in Hc; [ now apply IH | exact Hc ].
Qed.

(** ** The run loop ends *)

(** A completed cycle moves PC up by at least 2 and needs PC+2 within
    memory, so the loop cannot go on for ever: it ends with an exception
    (SystemExit for HLT, a fault otherwise). *)
Lemma cycle_Ok_progress s s' :
  wf s -> cycle s = (s', Ok tt) -> pc s + 2 <= 255 /\ pc s + 2 <= pc s'.
Proof.
  intros [Hram _] Hc.
  destruct (cycle_Ok_fetch _ _ Hc) as (i & oa & ob & H0 & _ & H2).
  pose proof (cycle_Ok_opcode _ _ _ Hc H0) as Hin.
  pose proof (cycle_Ok_pc _ _ _ Hc H0) as Hpc.
  apply getitem_Ok in H2 as [H2 _]. rewrite Hram in H2.
  split; [ lia | ].
  unfold completes in Hin. simpl in Hin.
  repeat (destruct Hin as [<- | Hin];
          [ rewrite Hpc; vm_compute (num_operands _); lia | ]).
  destruct Hin.
Qed.

Lemma run_ends k s :
  wf s -> 256 - pc s <= Z.of_nat k -> exists e, snd (run (S k) s) = Some e.
Proof.
  revert s. induction k as [ | k IH]; intros s Hwf Hk.
  - simpl. destruct (cycle s) as [s' [[] | e]] eqn:Hc; [ | now exists e ].
    apply cycle_Ok_progress in Hc; [ lia | exact Hwf ].
  - change (run (S (S k)) s) with
      (match cycle s with
       | (s', Ok _) => run (S k) s'
       | (s', Raise e) => (s', Some e)
       end).
    pose proof (wf_cycle s Hwf) as Hwf'.
    destruct (cycle s) as [s' [[] | e]] eqn:Hc; [ | now exists e ].
    apply cycle_Ok_progress in Hc; [ | exact Hwf ].
    apply IH; [ exact Hwf' | lia ].
Qed.

Corollary run_terminates s :
  wf s -> exists n e, snd (run n s) = Some e.
Proof.
  intros Hwf. exists (S (Z.to_nat (256 - pc s))).
  apply run_ends; [ exact Hwf | lia ].
Qed.


(** * Beyond the claims *)

(** ** The two ways a cycle can go *)

(** Either the fetch and the two operand reads succeed, or the cycle raises
    at once, having touched only [mar], [mdr] and [ir]. *)
Lemma cycle_fetch_cases s :
  (exists i oa ob,
     fetches s i /\
     Py.getitem (ram s) (pc s + 1) = Ok oa /\
     Py.getitem (ram s) (pc s + 2) = Ok ob) \/
  (exists s' e,
     cycle s = (s', Raise e) /\ core s' = core s /\ stdout s' = stdout s /\
     (e = IndexError \/ e = TypeError)).
Proof.
  unfold fetches.
  destruct (Py.getitem (ram s) (pc s)) as [[i | f] | e0] eqn:E0.
  - destruct (Py.getitem (ram s) (pc s + 1)) as [oa | e1] eqn:E1;
      [ destruct (Py.getitem (ram s) (pc s + 2)) as [ob | e2] eqn:E2 | ].
    + left. exists i, oa, ob. repeat split.
    + right. apply getitem_Raise in E2 as He. subst e2.
      unfold cycle.
      unfold bind at 1. unfold gets at 1.
      unfold bind at 1. rewrite ram_read_eq, E0.
      unfold bind at 1. unfold modify at 1.
      unfold bind at 1. unfold lift at 1. cbn [Py.rshift].
      unfold bind at 1. unfold gets at 1.
      unfold bind at 1. rewrite ram_read_eq. cbn [set_mdr set_mar set_ir ram pc]. rewrite E1.
      unfold bind at 1. unfold gets at 1.
      unfold bind at 1. rewrite ram_read_eq. cbn [set_mdr set_mar set_ir ram pc]. rewrite E2.
      eexists _, _. split; [ reflexivity | ]. repeat split. now left.
    + right. apply getitem_Raise in E1 as He. subst e1.
      unfold cycle.
      unfold bind at 1. unfold gets at 1.
      unfold bind at 1. rewrite ram_read_eq, E0.
      unfold bind at 1. unfold modify at 1.
      unfold bind at 1. unfold lift at 1. cbn [Py.rshift].
      unfold bind at 1. unfold gets at 1.
      unfold bind at 1. rewrite ram_read_eq. cbn [set_mdr set_mar set_ir ram pc]. rewrite E1.
      eexists _, _. split; [ reflexivity | ]. repeat split. now left.
  - right. unfold cycle.
    unfold bind at 1. unfold gets at 1.
    unfold bind at 1. rewrite ram_read_eq, E0.
    unfold bind at 1. unfold modify at 1.
    unfold bind at 1. unfold lift at 1. cbn [Py.rshift].
    eexists _, _. split; [ reflexivity | ]. repeat split. now right.
  - right. apply getitem_Raise in E0 as He. subst e0.
    unfold cycle.
    unfold bind at 1. unfold gets at 1.
    unfold bind at 1. rewrite ram_read_eq, E0.
    eexists _, _. split; [ reflexivity | ]. repeat split. now left.
Qed.

Lemma cycle_execute s i oa ob :
  fetches s i ->
  Py.getitem (ram s) (pc s + 1) = Ok oa ->
  Py.getitem (ram s) (pc s + 2) = Ok ob ->
  cycle s =
  bind (execute i oa ob) (fun _ => advance (num_operands i)) (fetched (VInt i) ob s).
Proof. intros H0 H1 H2. now rewrite (cycle_eq s i oa ob H0 H1 H2). Qed.

(** The handler the branch table gives for an int. *)
Lemma branchtable_cases i h :
  dict_get branchtable (VInt i) = Ok h ->
  (i = HLT /\ h = handle_hlt) \/ (i = LDI /\ h = handle_ldi) \/
  (i = PRN /\ h = handle_prn) \/ (i = PUSH /\ h = handle_push) \/
  (i = POP /\ h = handle_pop).
Proof.
  unfold branchtable, dict_get, Py.eq_int.
  destruct (i =? HLT) eqn:E0; [ apply Z.eqb_eq in E0; intros [= <-]; auto | ].
  destruct (i =? LDI) eqn:E1; [ apply Z.eqb_eq in E1; intros [= <-]; auto | ].
  destruct (i =? PRN) eqn:E2; [ apply Z.eqb_eq in E2; intros [= <-]; auto | ].
  destruct (i =? PUSH) eqn:E3; [ apply Z.eqb_eq in E3; intros [= <-]; auto 6 | ].
  destruct (i =? POP) eqn:E4; [ apply Z.eqb_eq in E4; intros [= <-]; auto 6 | ].
  discriminate.
Qed.

(** Goes through a method statement by statement; stops at a statement that
    assigns the observation. *)
Ltac keeps_method :=
  repeat lazymatch goal with
         | |- keeps _ (ram_read _) => apply keeps_ram_read; reflexivity
         | |- keeps _ (ram_write _ _) => apply keeps_ram_write; reflexivity
         | |- keeps _ (reg_set _ _) => apply keeps_reg_set; reflexivity
         | |- keeps _ (reg_get _) => apply keeps_reg_get
         | |- keeps _ (print _) => apply keeps_print; reflexivity
         | |- keeps _ trace => apply keeps_trace; reflexivity
         | |- keeps _ (alu _ _ _) => apply keeps_alu; reflexivity
         | |- _ => keeps_step
         end.

Lemma alu_unsupported i a b s :
  ~ In i [ADD; SUB; MUL; DIV] ->
  alu (VInt i) a b s = (s, Raise (Exception_ "Unsupported ALU operation")).
Proof.
  intros Hi. unfold alu, Py.eq_int. simpl in Hi.
  destruct (i =? ADD) eqn:E1; [ apply Z.eqb_eq in E1; subst i; exfalso; apply Hi; auto 6 | ].
  destruct (i =? SUB) eqn:E2; [ apply Z.eqb_eq in E2; subst i; exfalso; apply Hi; auto 6 | ].
  destruct (i =? MUL) eqn:E3; [ apply Z.eqb_eq in E3; subst i; exfalso; apply Hi; auto 6 | ].
  destruct (i =? DIV) eqn:E4; [ apply Z.eqb_eq in E4; subst i; exfalso; apply Hi; auto 6 | ].
  reflexivity.
Qed.

(** An observation that [alu], [trace] and the handler of [i] leave alone is
    left alone by the cycle that fetches [i], the PC update apart. *)
Lemma keeps_execute {B} (f : CPU -> B) i oa ob :
  keeps f (alu (VInt i) oa ob) ->
  keeps f trace ->
  (forall h, dict_get branchtable (VInt i) = Ok h -> keeps f h) ->
  keeps f (execute i oa ob).
Proof.
  intros Ha Ht Hh. unfold execute. apply keeps_if; [ exact Ha | ].
  apply keeps_bind; [ exact Ht | intros _ ].
  intros s. unfold bind, lift.
  destruct (dict_get branchtable (VInt i)) as [h | e] eqn:E; [ | reflexivity ].
  now apply Hh.
Qed.

Lemma cycle_keeps {B} (f : CPU -> B) s :
  (forall s1 s2, core s1 = core s2 -> f s1 = f s2) ->
  (forall x s0, f (set_pc x s0) = f s0) ->
  (forall i oa ob, fetches s i -> keeps f (execute i oa ob)) ->
  f (fst (cycle s)) = f s.
Proof.
  intros Hcore Hpc Hx.
  destruct (cycle_fetch_cases s) as [(i & oa & ob & H0 & H1 & H2) | (s' & e & Hc & Hs' & _)].
  - rewrite (cycle_execute s i oa ob H0 H1 H2).
    assert (Hk : keeps f (bind (execute i oa ob) (fun _ => advance (num_operands i)))).
    { apply keeps_bind; [ now apply Hx | intros _ ].
      unfold advance. apply keeps_modify. intros s0. apply Hpc. }
    rewrite Hk. apply Hcore. reflexivity.
  - rewrite Hc. cbn [fst]. now apply Hcore.
Qed.

(** ** Which instruction writes what *)

(** X1. Whatever a cycle does, returning or raising: memory is as it was
    unless the instruction fetched is PUSH; SP is as it was unless it is
    PUSH or POP; the registers are as they were unless it is LDI, POP, ADD,
    SUB, MUL or DIV.  (R7 in particular is an ordinary register: PUSH never
    writes it, the stack pointer being the separate attribute [sp].) *)
Theorem cycle_writes s :
  (~ fetches s PUSH -> ram (fst (cycle s)) = ram s) /\
  ((forall i, In i [PUSH; POP] -> ~ fetches s i) -> sp (fst (cycle s)) = sp s) /\
  ((forall i, In i [LDI; POP; ADD; SUB; MUL; DIV] -> ~ fetches s i) ->
   reg (fst (cycle s)) = reg s).
Proof.
  split; [ | split ].
  - intros Hn. apply cycle_keeps.
    + intros s1 s2 H. apply core_eq in H. tauto.
    + reflexivity.
    + intros i oa ob Hf. apply keeps_execute; [ keeps_method | keeps_method | ].
      intros h Hh.
      destruct (branchtable_cases i h Hh)
        as [[-> ->] | [[-> ->] | [[-> ->] | [[-> ->] | [-> ->]]]]];
        try contradiction;
        unfold handle_hlt, handle_ldi, handle_prn, handle_pop; keeps_method.
  - intros Hn. apply cycle_keeps.
    + intros s1 s2 H. apply core_eq in H. tauto.
    + reflexivity.
    + intros i oa ob Hf. apply keeps_execute; [ keeps_method | keeps_method | ].
      intros h Hh.
      destruct (branchtable_cases i h Hh)
        as [[-> ->] | [[-> ->] | [[-> ->] | [[-> ->] | [-> ->]]]]];
        try (exfalso; eapply Hn; [ | exact Hf ]; simpl; auto 8; fail);
        unfold handle_hlt, handle_ldi, handle_prn; keeps_method.
  - intros Hn. apply cycle_keeps.
    + intros s1 s2 H. apply core_eq in H. tauto.
    + reflexivity.
    + intros i oa ob Hf. apply keeps_execute; [ | keeps_method | ].
      * intros s0. rewrite alu_unsupported; [ reflexivity | ].
        intros Hi. apply (Hn i); [ simpl in *; tauto | exact Hf ].
      * intros h Hh.
        destruct (branchtable_cases i h Hh)
          as [[-> ->] | [[-> ->] | [[-> ->] | [[-> ->] | [-> ->]]]]];
          try (exfalso; eapply Hn; [ | exact Hf ]; simpl; auto 8; fail);
          unfold handle_hlt, handle_prn, handle_push; keeps_method.
Qed.

(** The theorem for the PRN cycle of [LDI R0,8; PRN R0; HLT]. *)
Lemma cycle_writes_witness :
  ram (fst (cycle (fst (run 1 (boot [LDI; 0; 8; PRN; 0; HLT])))))
  = ram (fst (run 1 (boot [LDI; 0; 8; PRN; 0; HLT]))) /\
  sp (fst (cycle (fst (run 1 (boot [LDI; 0; 8; PRN; 0; HLT])))))
  = sp (fst (run 1 (boot [LDI; 0; 8; PRN; 0; HLT]))) /\
  reg (fst (cycle (fst (run 1 (boot [LDI; 0; 8; PRN; 0; HLT])))))
  = reg (fst (run 1 (boot [LDI; 0; 8; PRN; 0; HLT]))).
Proof.
  pose proof (cycle_writes (fst (run 1 (boot [LDI; 0; 8; PRN; 0; HLT]))))
    as (Hram & Hsp & Hreg).
  split; [ | split ].
  - apply Hram. vm_compute. discriminate.
  - apply Hsp. intros i Hi. vm_compute. simpl in Hi.
    destruct Hi as [<- | [<- | []]]; discriminate.
  - apply Hreg. intros i Hi. vm_compute. simpl in Hi.
    destruct Hi as [<- | [<- | [<- | [<- | [<- | [<- | []]]]]]]; discriminate.
Defined.

(** ** What a fault leaves behind *)

Lemma aug_assign_Raise op a b s s' e :
  aug_assign op a b s = (s', Raise e) -> s' = s.
Proof.
  unfold aug_assign.
  unfold bind at 1. rewrite reg_get_eq.
  destruct (match Py.subscript a with Ok i => Py.getitem (reg s) i | Raise e0 => Raise e0 end)
    as [x | e1]; [ | now intros [= <-] ].
  unfold bind at 1. rewrite reg_get_eq.
  destruct (match Py.subscript b with Ok i => Py.getitem (reg s) i | Raise e0 => Raise e0 end)
    as [y | e2]; [ | now intros [= <-] ].
  unfold bind at 1. unfold lift at 1.
  destruct (op x y) as [z | e3]; [ | now intros [= <-] ].
  rewrite reg_set_eq.
  destruct (Py.subscript a) as [i | e4]; [ | now intros [= <-] ].
  destruct (Py.setitem (reg s) i z); [ discriminate | now intros [= <-] ].
Qed.

Lemma alu_Raise op a b s s' e :
  alu op a b s = (s', Raise e) -> s' = s.
Proof.
  unfold alu.
  destruct (Py.eq_int op ADD); [ apply aug_assign_Raise | ].
  destruct (Py.eq_int op SUB); [ apply aug_assign_Raise | ].
  destruct (Py.eq_int op MUL); [ apply aug_assign_Raise | ].
  destruct (Py.eq_int op DIV); [ apply aug_assign_Raise | ].
  unfold raise. now intros [= <-].
Qed.

(** A handler that raises: memory, registers and PC are as they were, and
    so is SP, unless the handler is [handle_push], which has decremented it. *)
Lemma handler_Raise i h s s' e :
  dict_get branchtable (VInt i) = Ok h ->
  h s = (s', Raise e) ->
  ram s' = ram s /\ reg s' = reg s /\ pc s' = pc s /\
  (sp s' = sp s \/ (i = PUSH /\ sp s' = sp s - 1)).
Proof.
  intros Hh.
  destruct (branchtable_cases i h Hh)
    as [[-> ->] | [[-> ->] | [[-> ->] | [[-> ->] | [-> ->]]]]].
  - unfold handle_hlt, raise. intros [= <- _]. repeat split; auto.
  - rewrite handle_ldi_eq.
    destruct (Py.getitem (ram s) (pc s + 1)) as [r | e1]; [ | intros [= <- _]; simpl; repeat split; auto ].
    destruct (Py.getitem (ram s) (pc s + 2)) as [v | e2]; [ | intros [= <- _]; simpl; repeat split; auto ].
    rewrite reg_set_eq.
    destruct (Py.subscript r) as [k | e3]; [ | intros [= <- _]; simpl; repeat split; auto ].
    cbn [set_mdr set_mar reg].
    destruct (Py.setitem (reg s) k v); [ discriminate | intros [= <- _]; simpl; repeat split; auto ].
  - rewrite handle_prn_eq.
    destruct (Py.getitem (ram s) (pc s + 1)) as [r | e1]; [ | intros [= <- _]; simpl; repeat split; auto ].
    cbv zeta.
    destruct (Py.subscript r) as [k | e3]; [ | intros [= <- _]; simpl; repeat split; auto ].
    destruct (Py.getitem (reg s) k); [ discriminate | intros [= <- _]; simpl; repeat split; auto ].
  - rewrite handle_push_eq. cbv zeta.
    destruct (Py.getitem (ram s) (pc s + 1)) as [r | e1]; [ | intros [= <- _]; simpl; repeat split; auto ].
    destruct (Py.subscript r) as [k | e3]; [ | intros [= <- _]; simpl; repeat split; auto ].
    destruct (Py.getitem (reg s) k) as [v | e4]; [ | intros [= <- _]; simpl; repeat split; auto ].
    rewrite ram_write_eq. cbn [set_mdr set_mar set_sp ram].
    destruct (Py.setitem (ram s) (sp s - 1) v); [ discriminate | intros [= <- _]; simpl; repeat split; auto ].
  - rewrite handle_pop_eq.
    destruct (Py.getitem (ram s) (sp s)) as [v | e0]; [ | intros [= <- _]; simpl; repeat split; auto ].
    destruct (Py.getitem (ram s) (pc s + 1)) as [r | e1]; [ | intros [= <- _]; simpl; repeat split; auto ].
    cbv zeta.
    destruct (Py.subscript r) as [k | e3]; [ | intros [= <- _]; simpl; repeat split; auto ].
    destruct (Py.setitem (reg s) k v); [ discriminate | intros [= <- _]; simpl; repeat split; auto ].
Qed.

Lemma bind_advance (m : M unit) n s :
  bind m (fun _ => advance n) s =
  match m s with
  | (s1, Ok _) => (set_pc (pc s1 + (n + 1)) s1, Ok tt)
  | (s1, Raise e) => (s1, Raise e)
  end.
Proof. unfold bind. destruct (m s) as [s1 [[] | e]]; reflexivity. Qed.

(** A cycle that raises leaves PC where it was. *)
Lemma cycle_Raise_pc s s' e : cycle s = (s', Raise e) -> pc s' = pc s.
Proof.
  intros Hc.
  destruct (cycle_fetch_cases s) as [(i & oa & ob & H0 & H1 & H2) | (s1 & e1 & Hc1 & Hs1 & _)].
  - rewrite (cycle_execute s i oa ob H0 H1 H2), bind_advance in Hc.
    pose proof (keeps_pc_execute i oa ob (fetched (VInt i) ob s)) as Hk.
    fold (execute i oa ob) in Hk.
    destruct (execute i oa ob (fetched (VInt i) ob s)) as [s2 [[] | e2]];
      [ discriminate Hc | ].
    injection Hc as <- <-. exact Hk.
  - rewrite Hc in Hc1. injection Hc1 as <- <-.
    apply core_eq in Hs1. tauto.
Qed.

(** X2. A cycle that raises has changed neither memory nor any register nor
    PC; SP is as it was too, except when the instruction is a PUSH that
    fails after its first statement, which leaves SP one lower. *)
Theorem cycle_fault_frame s s' e :
  cycle s = (s', Raise e) ->
  ram s' = ram s /\ reg s' = reg s /\ pc s' = pc s /\
  (sp s' = sp s \/ (fetches s PUSH /\ sp s' = sp s - 1)).
Proof.
  intros Hc.
  destruct (cycle_fetch_cases s) as [(i & oa & ob & H0 & H1 & H2) | (s1 & e1 & Hc1 & Hs1 & _)].
  - rewrite (cycle_execute s i oa ob H0 H1 H2) in Hc.
    unfold bind at 1 in Hc.
    destruct (execute i oa ob (fetched (VInt i) ob s)) as [s1 [[] | e1]] eqn:Hx;
      [ discriminate Hc | ].
    injection Hc as <- <-.
    unfold execute in Hx.
    destruct (negb (Z.land (Z.shiftr i 5) 1 =? 0)).
    + apply alu_Raise in Hx. subst s1. simpl. repeat split; auto.
    + unfold bind at 1 in Hx.
      pose proof (keeps_trace core ltac:(reflexivity) ltac:(reflexivity)
                    ltac:(reflexivity) (fetched (VInt i) ob s)) as Hk.
      destruct (trace (fetched (VInt i) ob s)) as [s2 [[] | e2]].
      * cbn [fst] in Hk. apply core_eq in Hk as (Er & Eg & Ep & Es).
        cbn [fetched set_mdr set_mar set_ir ram reg pc sp] in Er, Eg, Ep, Es.
        unfold bind, lift in Hx.
        destruct (dict_get branchtable (VInt i)) as [h | e3] eqn:Hd.
        -- destruct (handler_Raise i h s2 s1 e1 Hd Hx) as (Hr & Hg & Hp & Hs).
           rewrite Hr, Hg, Hp, Er, Eg, Ep. repeat split.
           destruct Hs as [Hs | [-> Hs]]; rewrite Hs, Es; auto.
        -- injection Hx as <- <-. repeat split; auto.
      * injection Hx as <- <-. cbn [fst] in Hk.
        apply core_eq in Hk as (Er & Eg & Ep & Es). repeat split; auto.
  - rewrite Hc in Hc1. injection Hc1 as <- <-.
    apply core_eq in Hs1 as (Er & Eg & Ep & Es). repeat split; auto.
Qed.


(** The theorem for a PUSH whose operand, 9, is no register number: the
    cycle raises IndexError and SP is left at 0xF2. *)
Lemma cycle_fault_frame_witness :
  ram (fst (cycle (boot [PUSH; 9]))) = ram (boot [PUSH; 9]) /\
  reg (fst (cycle (boot [PUSH; 9]))) = reg (boot [PUSH; 9]) /\
  pc (fst (cycle (boot [PUSH; 9]))) = pc (boot [PUSH; 9]) /\
  (sp (fst (cycle (boot [PUSH; 9]))) = sp (boot [PUSH; 9]) \/
   (fetches (boot [PUSH; 9]) PUSH /\
    sp (fst (cycle (boot [PUSH; 9]))) = sp (boot [PUSH; 9]) - 1)).
Proof.
  apply (cycle_fault_frame (boot [PUSH; 9]) (fst (cycle (boot [PUSH; 9]))) IndexError).
  vm_compute. reflexivity.
Defined.

(** ** Floats in registers *)













(** The register loop of [trace] stops with an exception at the first
    register it cannot format. *)
Lemma trace_loop_float idxs : forall s,
  (exists i f, In i idxs /\ Py.getitem (reg s) i = Ok (VFloat f)) ->
  exists s' e,
    for_each idxs (fun i =>
      bind (gets reg) (fun regs =>
        bind (lift (Py.getitem regs i)) (fun v =>
          bind (lift (Py.hex_arg v)) (fun x => print (OutReg x))))) s
    = (s', Raise e) /\
    (e = TypeError \/ e = IndexError) /\
    (forall v, In (OutValue v) (stdout s') -> In (OutValue v) (stdout s)).
Proof.
  induction idxs as [ | i0 idxs IH]; intros s (i & f & Hin & Hf).
  - destruct Hin.
  - cbn [for_each]. unfold bind at 1.
    destruct (Py.getitem (reg s) i0) as [[r | g] | e0] eqn:E0.
    + rewrite (trace_reg_eq s i0 r E0).
      destruct Hin as [-> | Hin]; [ congruence | ].
      destruct (IH (set_stdout (stdout s ++ [OutReg r]) s)) as (s' & e & Hl & He & Hv).
      { exists i, f. split; [ exact Hin | exact Hf ]. }
      exists s', e. split; [ exact Hl | split; [ exact He | ] ].
      intros v Hv'. apply Hv in Hv'. cbn [set_stdout stdout] in Hv'.
      apply in_app_or in Hv' as [Hv' | [Hv' | []]]; [ exact Hv' | discriminate ].
    + unfold bind, gets, lift. rewrite E0. cbn [Py.hex_arg].
      eexists _, _. split; [ reflexivity | ]. split; [ now left | auto ].
    + unfold bind, gets, lift. rewrite E0.
      apply getitem_Raise in E0 as ->.
      eexists _, _. split; [ reflexivity | ]. split; [ now right | auto ].
Qed.

(** With a float in some register, [trace] raises: it prints at most part
    of its line, and no value. *)
Lemma trace_float s :
  wf s -> has_float s ->
  exists s' e,
    trace s = (s', Raise e) /\ (e = TypeError \/ e = IndexError) /\
    (forall v, In (OutValue v) (stdout s') -> In (OutValue v) (stdout s)).
Proof.
  intros [_ Hreg] (k & f & Hk).
  assert (Hloop : forall s1, reg s1 = reg s ->
            exists i g, In i [0; 1; 2; 3; 4; 5; 6; 7] /\
                        Py.getitem (reg s1) i = Ok (VFloat g)).
  { intros s1 Hs1. exists (Z.of_nat k), f.
    apply lookup_lt_Some in Hk as Hlt. rewrite Hreg in Hlt.
    split.
    - do 8 (destruct k as [ | k]; [ simpl; auto 10 | ]). lia.
    - apply getitem_lookup; rewrite Hs1, Hreg; [ lia | ].
      rewrite Z.mod_small by lia. now rewrite Nat2Z.id. }
  unfold trace.
  unfold bind at 1. unfold gets at 1.
  unfold bind at 1. rewrite ram_read_eq.
  destruct (Py.getitem (ram s) (pc s)) as [b0 | e0] eqn:E0;
    [ | apply getitem_Raise in E0 as ->; eexists _, _;
        split; [ reflexivity | split; [ now right | auto ] ] ].
  unfold bind at 1. unfold gets at 1.
  unfold bind at 1. rewrite ram_read_eq. cbn [set_mdr set_mar ram pc].
  destruct (Py.getitem (ram s) (pc s + 1)) as [b1 | e1] eqn:E1;
    [ | apply getitem_Raise in E1 as ->; eexists _, _;
        split; [ reflexivity | split; [ now right | auto ] ] ].
  unfold bind at 1. unfold gets at 1.
  unfold bind at 1. rewrite ram_read_eq. cbn [set_mdr set_mar ram pc].
  destruct (Py.getitem (ram s) (pc s + 2)) as [b2 | e2] eqn:E2;
    [ | apply getitem_Raise in E2 as ->; eexists _, _;
        split; [ reflexivity | split; [ now right | auto ] ] ].
  unfold bind at 1. unfold lift at 1.
  destruct b0 as [x0 | f0];
    [ | eexists _, _; split; [ reflexivity | split; [ now left | auto ] ] ].
  cbn [Py.hex_arg].
  unfold bind at 1. unfold lift at 1.
  destruct b1 as [x1 | f1];
    [ | eexists _, _; split; [ reflexivity | split; [ now left | auto ] ] ].
  cbn [Py.hex_arg].
  unfold bind at 1. unfold lift at 1.
  destruct b2 as [x2 | f2];
    [ | eexists _, _; split; [ reflexivity | split; [ now left | auto ] ] ].
  cbn [Py.hex_arg].
  unfold bind at 1. unfold print at 1, modify at 1.
  change (seqZ 0 8) with [0; 1; 2; 3; 4; 5; 6; 7].
  unfold bind at 1.
  match goal with
  | |- context [for_each _ _ ?st] =>
      destruct (trace_loop_float [0; 1; 2; 3; 4; 5; 6; 7] st (Hloop st eq_refl))
        as (s' & e & Hl & He & Hv)
  end.
  rewrite Hl. exists s', e. split; [ reflexivity | split; [ exact He | ] ].
  intros v Hv'. apply Hv in Hv'. cbn [set_stdout set_mdr set_mar stdout] in Hv'.
  apply in_app_or in Hv' as [Hv' | [Hv' | []]]; [ exact Hv' | discriminate ].
Qed.







(** ** The length of a run *)

(** X5. The run loop always ends with an exception, and soon: a completed
    cycle moves PC up by at least 2 and needs PC + 2 within memory, so from
    PC = p no more than (256 - p) / 2 cycles complete.  From PC = 0 the run
    is over within 129 cycles. *)
Theorem run_ends_within s k :
  wf s -> 256 - pc s <= 2 * Z.of_nat k ->
  exists s' e, run (S k) s = (s', Some e) /\ pc s <= pc s'.
Proof.
  revert s. induction k as [ | k IH]; intros s Hwf Hk.
  - simpl. destruct (cycle s) as [s' [[] | e]] eqn:Hc.
    + apply cycle_Ok_progress in Hc; [ lia | exact Hwf ].
    + exists s', e. split; [ reflexivity | ].
      apply cycle_Raise_pc in Hc. lia.
  - change (run (S (S k)) s) with
      (match cycle s with
       | (s', Ok _) => run (S k) s'
       | (s', Raise e) => (s', Some e)
       end).
    pose proof (wf_cycle s Hwf) as Hwf'.
    destruct (cycle s) as [s1 [[] | e]] eqn:Hc.
    + apply cycle_Ok_progress in Hc; [ | exact Hwf ].
      destruct (IH s1 Hwf') as (s' & e & Hr & Hp); [ lia | ].
      exists s', e. split; [ exact Hr | lia ].
    + exists s1, e. split; [ reflexivity | ].
      apply cycle_Raise_pc in Hc. lia.
Qed.

(** The theorem for the machine [CPU()] builds. *)
Lemma run_ends_within_witness :
  exists s' e, run 129 init = (s', Some e) /\ pc init <= pc s'.
Proof.
  apply (run_ends_within init 128).
  - split; reflexivity.
  - vm_compute. discriminate.
Defined.

(** X6. Whatever file is loaded and however long the run, the object has
    256 memory cells and 8 registers: neither [load] nor any instruction
    resizes the two lists. *)
Theorem shape_invariant image n : wf (fst (run n (boot image))).
Proof.
  generalize (wf_boot image). generalize (boot image).
  induction n as [ | n IH]; intros s Hs; simpl; [ exact Hs | ].
  pose proof (wf_cycle s Hs) as Hc.
  destruct (cycle s) as [s' [[] | e]]; simpl in Hc; [ now apply IH | exact Hc ].
Qed.

(** ** Memory as a store *)

(** X7. In a memory of 256 cells, for every address from -256 to 255: a
    write returns, a read at the same address then returns the value
    written, and a read of any other cell returns what it returned before
    the write. *)
Theorem ram_write_read s a v :
  wf s -> -256 <= a <= 255 ->
  exists s1,
    ram_write a v s = (s1, Ok tt) /\
    snd (ram_read a s1) = Ok v /\
    (forall b, -256 <= b <= 255 -> b mod 256 <> a mod 256 ->
       snd (ram_read b s1) = snd (ram_read b s)) /\
    reg s1 = reg s /\ pc s1 = pc s /\ sp s1 = sp s.
Proof.
  intros [Hram Hreg] Ha.
  rewrite ram_write_eq, setitem_in_range by (rewrite Hram; lia). rewrite Hram.
  eexists. split; [ reflexivity | ]. cbn [set_ram set_mdr set_mar ram reg pc sp].
  split; [ | split; [ | repeat split ] ].
  - rewrite ram_read_eq. cbn [set_ram ram].
    erewrite getitem_lookup; [ reflexivity | rewrite length_insert, Hram; lia | ].
    rewrite length_insert, Hram. apply list_lookup_insert_eq. rewrite Hram.
    pose proof (Z.mod_pos_bound a 256 ltac:(lia)). lia.
  - intros b Hb Hne. rewrite !ram_read_eq. cbn [set_ram ram].
    destruct (getitem_in_range (ram s) b) as (x & Hx & Hl); [ rewrite Hram; lia | ].
    rewrite Hx. rewrite Hram in Hl.
    erewrite getitem_lookup; [ reflexivity | rewrite length_insert, Hram; lia | ].
    rewrite length_insert, Hram. rewrite list_lookup_insert_ne; [ exact Hl | ].
    intros Heq. apply Hne. symmetry.
    pose proof (Z.mod_pos_bound a 256 ltac:(lia)).
    pose proof (Z.mod_pos_bound b 256 ltac:(lia)).
    change (Z.of_nat 256) with 256 in Heq. apply Z2Nat.inj in Heq; lia.
Qed.

(** The theorem for a write of 7 at address -2 of a fresh machine. *)
Lemma ram_write_read_witness :
  exists s1,
    ram_write (-2) (VInt 7) init = (s1, Ok tt) /\
    snd (ram_read (-2) s1) = Ok (VInt 7) /\
    (forall b, -256 <= b <= 255 -> b mod 256 <> (-2) mod 256 ->
       snd (ram_read b s1) = snd (ram_read b init)) /\
    reg s1 = reg init /\ pc s1 = pc init /\ sp s1 = sp init.
Proof.
  apply (ram_write_read init (-2) (VInt 7)).
  - split; reflexivity.
  - lia.
Defined.

(** ** Register operands that name no register *)

Lemma alu_is_aug_assign op :
  In op [ADD; SUB; MUL; DIV] ->
  exists f, alu_operator f /\ forall a b, alu (VInt op) a b = aug_assign f a b.
Proof.
  unfold alu_operator. simpl.
  intros [<- | [<- | [<- | [<- | []]]]]; eexists; (split; [ | intros a b; reflexivity ]);
    auto 6.
Qed.

(** X8. An ALU instruction (ADD, SUB, MUL, DIV) whose first operand is an
    int outside [-8, 7], so any operand byte from 8 to 255, raises
    IndexError and changes nothing; so does one whose first operand names a
    register and whose second does not; a float as first operand raises
    TypeError. *)
Theorem alu_bad_register s op :
  wf s -> In op [ADD; SUB; MUL; DIV] ->
  (forall a b, a < -8 \/ 8 <= a ->
     alu (VInt op) (VInt a) b s = (s, Raise IndexError)) /\
  (forall a b, -8 <= a < 8 -> b < -8 \/ 8 <= b ->
     alu (VInt op) (VInt a) (VInt b) s = (s, Raise IndexError)) /\
  (forall f b, alu (VInt op) (VFloat f) b s = (s, Raise TypeError)).
Proof.
  intros [_ Hreg] Hop. destruct (alu_is_aug_assign op Hop) as (g & _ & Hg).
  split; [ | split ].
  - intros a b Ha. rewrite Hg. unfold aug_assign.
    unfold bind at 1. rewrite reg_get_eq. cbn [Py.subscript].
    rewrite getitem_out by (rewrite Hreg; lia). reflexivity.
  - intros a b Ha Hb. rewrite Hg. unfold aug_assign.
    unfold bind at 1. rewrite reg_get_eq. cbn [Py.subscript].
    destruct (getitem_in_range (reg s) a) as (x & -> & _); [ rewrite Hreg; lia | ].
    unfold bind at 1. rewrite reg_get_eq. cbn [Py.subscript].
    rewrite getitem_out by (rewrite Hreg; lia). reflexivity.
  - intros f b. rewrite Hg. unfold aug_assign.
    unfold bind at 1. rewrite reg_get_eq. reflexivity.
Qed.

(** The theorem for [ADD] with operand bytes 8 and 0 in a fresh machine. *)
Lemma alu_bad_register_witness :
  alu (VInt ADD) (VInt 8) (VInt 0) init = (init, Raise IndexError).
Proof.
  refine (proj1 (alu_bad_register init ADD _ _) 8 (VInt 0) _).
  - split; reflexivity.
  - simpl. auto.
  - right. lia.
Defined.

(** ** PRN *)



(** ** LDI followed by PRN *)




(** ** Loading a program *)

Lemma load_cons z zs s :
  load (z :: zs) s =
  match Py.setitem (ram s) (mar s) (VInt z) with
  | Ok cells => load zs (set_mar (mar s + 1) (set_ram cells s))
  | Raise e => (s, Raise e)
  end.
Proof.
  unfold load. cbn [for_each]. unfold bind, gets, lift, modify.
  destruct (Py.setitem (ram s) (mar s) (VInt z)); reflexivity.
Qed.

(** The loop over the lines stores what [load] stores for the numbers the
    lines hold, as long as [int] accepts every literal. *)
Lemma load_lines_image lines : forall image s,
  image_of lines = Some image ->
  load_lines lines s =
  (fst (load image s),
   match snd (load image s) with
   | Ok _ => None
   | Raise e => Some (LoadRaise e)
   end).
Proof.
  induction lines as [ | line lines IH]; intros image s Him; simpl in Him.
  - injection Him as <-. reflexivity.
  - cbn [load_lines]. unfold load_line.
    destruct (instruction_literal line) as [lit | ].
    + destruct (PyStr.int2 lit) as [z | ]; [ | discriminate ].
      destruct (image_of lines) as [zs | ]; [ | discriminate ].
      injection Him as <-. rewrite load_cons.
      destruct (Py.setitem (ram s) (mar s) (VInt z)); [ | reflexivity ].
      now apply IH.
    + now apply IH.
Qed.

(** What [load] does to a memory with room for the whole image. *)
Lemma load_fits image : forall s,
  wf s -> 0 <= mar s -> mar s + Z.of_nat (length image) <= 256 ->
  exists s',
    load image s = (s', Ok tt) /\
    wf s' /\
    mar s' = mar s + Z.of_nat (length image) /\
    (forall k z, image !! k = Some z ->
       ram s' !! (Z.to_nat (mar s) + k)%nat = Some (VInt z)) /\
    (forall p, (p < Z.to_nat (mar s))%nat \/
               (Z.to_nat (mar s) + length image <= p)%nat ->
       ram s' !! p = ram s !! p) /\
    reg s' = reg s /\ pc s' = pc s /\ sp s' = sp s /\ stdout s' = stdout s.
Proof.
  induction image as [ | z zs IH]; intros s Hwf Hm Hfit.
  - exists s. simpl. repeat split; try apply Hwf; try lia.
    intros k z Hk. rewrite lookup_nil in Hk. discriminate.
  - cbn [length] in Hfit. rewrite Nat2Z.inj_succ in Hfit.
    destruct Hwf as [Hram Hreg].
    rewrite load_cons, setitem_in_range by (rewrite Hram; lia).
    rewrite Hram, Z.mod_small by lia.
    set (s1 := set_mar (mar s + 1) (set_ram (<[Z.to_nat (mar s) := VInt z]> (ram s)) s)).
    destruct (IH s1) as (s' & Hl & Hwf' & Hmar & Hget & Hframe & Hg & Hp & Hs & Ho).
    { split; [ cbn [s1 set_mar set_ram ram]; now rewrite length_insert | exact Hreg ]. }
    { cbn [s1 set_mar mar]. lia. }
    { cbn [s1 set_mar mar]. lia. }
    cbn [s1 set_mar set_ram mar ram reg pc sp stdout] in Hmar, Hget, Hframe, Hg, Hp, Hs, Ho.
    exists s'. split; [ exact Hl | ]. split; [ exact Hwf' | ].
    cbn [length]. rewrite Nat2Z.inj_succ.
    split; [ lia | ]. split; [ | split; [ | tauto ] ].
    + intros [ | k] w Hk.
      * simpl in Hk. injection Hk as <-. rewrite Hframe by lia.
        rewrite Nat.add_0_r. apply list_lookup_insert_eq. rewrite Hram. lia.
      * simpl in Hk. apply Hget in Hk.
        replace (Z.to_nat (mar s) + S k)%nat with (Z.to_nat (mar s + 1) + k)%nat by lia.
        exact Hk.
    + intros p Hp'. rewrite Hframe by lia. apply list_lookup_insert_ne. lia.
Qed.

(** X11. When [int] accepts every literal of the file and memory has room
    for the numbers from [mar] on (for a fresh machine: at most 256 of them),
    the loop of [load] ends normally; it has stored the numbers in file
    order from address [mar] on, so that reading address [mar + k] gives the
    [k]-th of them; every other cell, the registers, PC and SP are as they
    were, and [mar] has gone up by their count. *)
Theorem load_stores_image lines image s :
  image_of lines = Some image ->
  wf s -> 0 <= mar s -> mar s + Z.of_nat (length image) <= 256 ->
  exists s',
    load_lines lines s = (s', None) /\
    mar s' = mar s + Z.of_nat (length image) /\
    (forall k z, image !! k = Some z ->
       snd (ram_read (mar s + Z.of_nat k) s') = Ok (VInt z)) /\
    (forall p, (p < Z.to_nat (mar s))%nat \/
               (Z.to_nat (mar s) + length image <= p)%nat ->
       ram s' !! p = ram s !! p) /\
    reg s' = reg s /\ pc s' = pc s /\ sp s' = sp s.
Proof.
  intros Him Hwf Hm Hfit.
  destruct (load_fits image s Hwf Hm Hfit)
    as (s' & Hl & [Hram' _] & Hmar & Hget & Hframe & Hg & Hp & Hs & _).
  exists s'. rewrite (load_lines_image lines image s Him), Hl. cbn [fst snd].
  split; [ reflexivity | ]. split; [ exact Hmar | ].
  split; [ | split; [ exact Hframe | tauto ] ].
  intros k z Hk. apply lookup_lt_Some in Hk as Hlt.
  rewrite ram_read_eq.
  erewrite getitem_lookup; [ reflexivity | rewrite Hram'; lia | ].
  rewrite Hram'. change (Z.of_nat 256) with 256. rewrite Z.mod_small by lia.
  replace (Z.to_nat (mar s + Z.of_nat k)) with (Z.to_nat (mar s) + k)%nat by lia.
  now apply Hget.
Qed.

(** The theorem for [demo_file] and a fresh machine: the four numbers are
    at addresses 0 to 3. *)
Lemma load_stores_image_witness :
  exists s',
    load_lines demo_file init = (s', None) /\
    mar s' = mar init + Z.of_nat (length [130; 0; 8; 1]) /\
    (forall k z, [130; 0; 8; 1] !! k = Some z ->
       snd (ram_read (mar init + Z.of_nat k) s') = Ok (VInt z)) /\
    (forall p, (p < Z.to_nat (mar init))%nat \/
               (Z.to_nat (mar init) + length [130; 0; 8; 1] <= p)%nat ->
       ram s' !! p = ram init !! p) /\
    reg s' = reg init /\ pc s' = pc init /\ sp s' = sp init.
Proof.
  apply (load_stores_image demo_file [130; 0; 8; 1] init).
  - vm_compute. reflexivity.
  - split; reflexivity.
  - vm_compute. discriminate.
  - vm_compute. discriminate.
Defined.

Lemma load_overflows image : forall s,
  wf s -> 0 <= mar s <= 256 -> 256 < mar s + Z.of_nat (length image) ->
  exists s',
    load image s = (s', Raise IndexError) /\
    mar s' = 256 /\
    (forall k z, image !! k = Some z -> mar s + Z.of_nat k < 256 ->
       ram s' !! (Z.to_nat (mar s) + k)%nat = Some (VInt z)) /\
    (forall p, (p < Z.to_nat (mar s))%nat -> ram s' !! p = ram s !! p).
Proof.
  induction image as [ | z zs IH]; intros s Hwf Hm Hover.
  - simpl in Hover. lia.
  - cbn [length] in Hover. rewrite Nat2Z.inj_succ in Hover.
    destruct Hwf as [Hram Hreg]. rewrite load_cons.
    destruct (Z.eq_dec (mar s) 256) as [E | E].
    + rewrite setitem_out by (rewrite Hram; lia).
      exists s. repeat split; try assumption. intros k w _ Hk. lia.
    + rewrite setitem_in_range by (rewrite Hram; lia).
      rewrite Hram, Z.mod_small by lia.
      set (s1 := set_mar (mar s + 1) (set_ram (<[Z.to_nat (mar s) := VInt z]> (ram s)) s)).
      destruct (IH s1) as (s' & Hl & Hmar & Hget & Hframe).
      { split; [ cbn [s1 set_mar set_ram ram]; now rewrite length_insert | exact Hreg ]. }
      { cbn [s1 set_mar mar]. lia. }
      { cbn [s1 set_mar mar]. lia. }
      cbn [s1 set_mar set_ram mar ram] in Hget, Hframe.
      exists s'. split; [ exact Hl | ]. split; [ exact Hmar | ]. split.
      * intros [ | k] w Hk Hlt.
        -- simpl in Hk. injection Hk as <-. rewrite Hframe by lia.
           rewrite Nat.add_0_r. apply list_lookup_insert_eq. rewrite Hram. lia.
        -- simpl in Hk. apply Hget in Hk; [ | lia ].
           replace (Z.to_nat (mar s) + S k)%nat with (Z.to_nat (mar s + 1) + k)%nat by lia.
           exact Hk.
      * intros p Hp. rewrite Hframe by lia. apply list_lookup_insert_ne. lia.
Qed.

(** X12. When the file holds more numbers than memory has cells from [mar]
    on (for a fresh machine: more than 256), the loop of [load] raises
    IndexError at the first number that does not fit, with [mar] at 256: the
    numbers before it are in memory, nothing wraps around to address 0 and
    the rest of the file is not read. *)
Theorem load_overflow lines image s :
  image_of lines = Some image ->
  wf s -> 0 <= mar s <= 256 -> 256 < mar s + Z.of_nat (length image) ->
  exists s',
    load_lines lines s = (s', Some (LoadRaise IndexError)) /\
    mar s' = 256 /\
    (forall k z, image !! k = Some z -> mar s + Z.of_nat k < 256 ->
       ram s' !! (Z.to_nat (mar s) + k)%nat = Some (VInt z)) /\
    (forall p, (p < Z.to_nat (mar s))%nat -> ram s' !! p = ram s !! p).
Proof.
  intros Him Hwf Hm Hover.
  destruct (load_overflows image s Hwf Hm Hover) as (s' & Hl & Hrest).
  exists s'. rewrite (load_lines_image lines image s Him), Hl. cbn [fst snd].
  split; [ reflexivity | exact Hrest ].
Qed.

(** The theorem for a file of 257 lines [00000001] and a fresh machine. *)
Lemma load_overflow_witness :
  exists s',
    load_lines (replicate 257 "00000001"%string) init
    = (s', Some (LoadRaise IndexError)) /\
    mar s' = 256 /\
    (forall k z, replicate 257 1 !! k = Some z -> mar init + Z.of_nat k < 256 ->
       ram s' !! (Z.to_nat (mar init) + k)%nat = Some (VInt z)) /\
    (forall p, (p < Z.to_nat (mar init))%nat -> ram s' !! p = ram init !! p).
Proof.
  apply (load_overflow (replicate 257 "00000001"%string) (replicate 257 1) init).
  - vm_compute. reflexivity.
  - split; reflexivity.
  - vm_compute. split; discriminate.
  - vm_compute. reflexivity.
Defined.

(** ** The lines of the file *)

Lemma before_hash_bits bs rest :
  PyStr.before_hash (bits_string bs ++ rest) = (bits_string bs ++ PyStr.before_hash rest)%string.
Proof.
  induction bs as [ | b bs IH]; [ reflexivity | ].
  destruct b; simpl; now rewrite IH.
Qed.

Lemma prefix_bits bs rest :
  PyStr.prefix (length bs) (bits_string bs ++ rest) = bits_string bs.
Proof.
  induction bs as [ | b bs IH]; simpl.
  - destruct rest; reflexivity.
  - now rewrite IH.
Qed.

Lemma binary_digits_bits bs : forall acc,
  PyStr.binary_digits (bits_string bs) false acc
  = Some (fold_left (fun a b => 2 * a + Z.b2z b) bs acc, EmptyString).
Proof.
  induction bs as [ | b bs IH]; intros acc; [ reflexivity | ].
  destruct b; simpl; apply IH.
Qed.

(** [int] reads a string of binary digits as the number they write. *)
Lemma int2_bits bs :
  bs <> [] -> PyStr.int2 (bits_string bs) = Some (bits_value bs).
Proof.
  destruct bs as [ | b bs]; [ congruence | intros _ ].
  assert (Hlit : PyStr.binary_literal (bits_string (b :: bs))
                 = Some (bits_value (b :: bs), EmptyString)).
  { unfold PyStr.binary_literal.
    destruct bs as [ | b1 bs].
    - destruct b; reflexivity.
    - replace (match bits_string (b :: b1 :: bs) with
               | String c0 (String c1 s') =>
                   if Ascii.eqb c0 "0" && (Ascii.eqb c1 "b" || Ascii.eqb c1 "B") then
                     match s' with
                     | String c2 s'' => if Ascii.eqb c2 "_" then s'' else s'
                     | EmptyString => s'
                     end
                   else bits_string (b :: b1 :: bs)
               | _ => bits_string (b :: b1 :: bs)
               end) with (bits_string (b :: b1 :: bs))
        by (destruct b, b1; reflexivity).
      rewrite binary_digits_bits. destruct b; reflexivity. }
  unfold PyStr.int2.
  replace (PyStr.skip_spaces (bits_string (b :: bs))) with (bits_string (b :: bs))
    by (destruct b; reflexivity).
  replace (PyStr.signed_literal (bits_string (b :: bs)))
    with (PyStr.binary_literal (bits_string (b :: bs)))
    by (destruct b; reflexivity).
  now rewrite Hlit.
Qed.

Lemma bits_fold_bound bs : forall acc,
  0 <= acc ->
  acc <= fold_left (fun a b => 2 * a + Z.b2z b) bs acc
      < (acc + 1) * 2 ^ Z.of_nat (length bs).
Proof.
  induction bs as [ | b bs IH]; intros acc Hacc.
  - simpl. lia.
  - cbn [fold_left length]. rewrite Nat2Z.inj_succ, Z.pow_succ_r by lia.
    specialize (IH (2 * acc + Z.b2z b)).
    assert (0 < 2 ^ Z.of_nat (length bs)) by (apply Z.pow_pos_nonneg; lia).
    destruct b; cbn [Z.b2z] in *; nia.
Qed.

(** X13. A line that starts with 8 binary digits stores the number they
    write, a byte, at [mar], whatever follows the digits on the line: more
    digits, text, a comment. *)
Theorem eight_digit_line bs rest s :
  length bs = 8%nat ->
  0 <= bits_value bs < 256 /\
  load_line (bits_string bs ++ rest) s =
  match Py.setitem (ram s) (mar s) (VInt (bits_value bs)) with
  | Raise e => (s, Some (LoadRaise e))
  | Ok cells => (set_mar (mar s + 1) (set_ram cells s), None)
  end.
Proof.
  intros Hlen. split.
  - pose proof (bits_fold_bound bs 0 ltac:(lia)) as H. rewrite Hlen in H.
    unfold bits_value. change (2 ^ Z.of_nat 8) with 256 in H. lia.
  - assert (Hlit : instruction_literal (bits_string bs ++ rest) = Some (bits_string bs)).
    { assert (Hp : PyStr.prefix 8 (bits_string bs ++ PyStr.before_hash rest)
                   = bits_string bs) by (rewrite <- Hlen; apply prefix_bits).
      unfold instruction_literal. rewrite before_hash_bits, Hp.
      destruct bs as [ | b bs]; [ discriminate Hlen | ].
      destruct b; reflexivity. }
    unfold load_line. rewrite Hlit, int2_bits; [ reflexivity | ].
    intros ->. discriminate Hlen.
Qed.

(** The theorem for the line [10000010 # LDI R0,8] and a fresh machine. *)
Lemma eight_digit_line_witness :
  0 <= bits_value [true; false; false; false; false; false; true; false] < 256 /\
  load_line (bits_string [true; false; false; false; false; false; true; false]
             ++ " # LDI R0,8") init =
  match Py.setitem (ram init) (mar init)
          (VInt (bits_value [true; false; false; false; false; false; true; false])) with
  | Raise e => (init, Some (LoadRaise e))
  | Ok cells => (set_mar (mar init + 1) (set_ram cells init), None)
  end.
Proof.
  apply (eight_digit_line [true; false; false; false; false; false; true; false]
           " # LDI R0,8" init).
  reflexivity.
Defined.

Lemma binary_digits_bound s : forall prev acc z rest,
  PyStr.binary_digits s prev acc = Some (z, rest) -> 0 <= acc ->
  acc <= z < (acc + 1) * 2 ^ Z.of_nat (String.length s).
Proof.
  induction s as [ | c s IH]; intros prev acc z rest H Hacc; cbn [PyStr.binary_digits] in H.
  - destruct prev; [ discriminate | ]. injection H as <- _. simpl. lia.
  - cbn [String.length]. rewrite Nat2Z.inj_succ, Z.pow_succ_r by lia.
    assert (0 < 2 ^ Z.of_nat (String.length s)) by (apply Z.pow_pos_nonneg; lia).
    destruct (Ascii.eqb c "_").
    + destruct prev; [ discriminate | ]. apply IH in H; [ nia | lia ].
    + destruct (PyStr.digit2 c) as [d | ] eqn:Ed.
      * assert (0 <= d <= 1).
        { unfold PyStr.digit2 in Ed.
          destruct (Ascii.eqb c "0"); [ injection Ed as <-; lia | ].
          destruct (Ascii.eqb c "1"); [ injection Ed as <-; lia | discriminate ]. }
        apply IH in H; [ nia | lia ].
      * destruct prev; [ discriminate | ]. injection H as <- _. nia.
Qed.

Lemma binary_literal_bound s z rest :
  PyStr.binary_literal s = Some (z, rest) ->
  0 <= z < 2 ^ Z.of_nat (String.length s).
Proof.
  unfold PyStr.binary_literal.
  set (s1 := match s with
             | String c0 (String c1 s') =>
                 if Ascii.eqb c0 "0" && (Ascii.eqb c1 "b" || Ascii.eqb c1 "B") then
                   match s' with
                   | String c2 s'' => if Ascii.eqb c2 "_" then s'' else s'
                   | EmptyString => s'
                   end
                 else s
             | _ => s
             end).
  assert (Hlen : (String.length s1 <= String.length s)%nat).
  { subst s1. destruct s as [ | c0 [ | c1 s']]; try lia.
    destruct (Ascii.eqb c0 "0" && (Ascii.eqb c1 "b" || Ascii.eqb c1 "B")); [ | lia ].
    destruct s' as [ | c2 s'']; [ simpl; lia | ].
    destruct (Ascii.eqb c2 "_"); simpl; lia. }
  destruct s1 as [ | c t] eqn:E1; [ discriminate | ].
  destruct (PyStr.digit2 c); [ | discriminate ].
  intros H. apply binary_digits_bound in H; [ | lia ].
  assert (2 ^ Z.of_nat (String.length (String c t)) <= 2 ^ Z.of_nat (String.length s))
    by (apply Z.pow_le_mono_r; lia).
  lia.
Qed.

Lemma prefix_length n s : (String.length (PyStr.prefix n s) <= n)%nat.
Proof.
  revert s. induction n as [ | n IH]; intros [ | c s]; simpl; try lia.
  specialize (IH s). lia.
Qed.

(** A literal taken from a line starts with 0 or 1 and has at most 8
    characters. *)
Lemma instruction_literal_shape line lit :
  instruction_literal line = Some lit ->
  exists c t, lit = String c t /\ (c = "0"%char \/ c = "1"%char) /\
              (String.length lit <= 8)%nat.
Proof.
  unfold instruction_literal.
  destruct (PyStr.before_hash line) as [ | c p] eqn:E; [ discriminate | ].
  assert (Hshape : PyStr.prefix 8 (String c p) = String c (PyStr.prefix 7 p))
    by reflexivity.
  pose proof (prefix_length 8 (String c p)) as Hlen.
  destruct (Ascii.eqb c "1") eqn:E1; [ | destruct (Ascii.eqb c "0") eqn:E0 ];
    cbn [orb]; try discriminate; intros [= <-].
  - apply Ascii.eqb_eq in E1. exists c, (PyStr.prefix 7 p).
    split; [ exact Hshape | ]. split; [ now right | exact Hlen ].
  - apply Ascii.eqb_eq in E0. exists c, (PyStr.prefix 7 p).
    split; [ exact Hshape | ]. split; [ now left | exact Hlen ].
Qed.

(** What [int] makes of such a literal is a byte. *)
Lemma literal_byte line lit z :
  instruction_literal line = Some lit -> PyStr.int2 lit = Some z -> 0 <= z < 256.
Proof.
  intros Hlit Hint.
  destruct (instruction_literal_shape line lit Hlit) as (c & t & -> & Hc & Hlen).
  unfold PyStr.int2 in Hint.
  assert (Hs : PyStr.signed_literal (PyStr.skip_spaces (String c t))
               = PyStr.binary_literal (String c t))
    by (destruct Hc as [-> | ->]; reflexivity).
  rewrite Hs in Hint.
  destruct (PyStr.binary_literal (String c t)) as [[z' rest] | ] eqn:Eb; [ | discriminate ].
  destruct (PyStr.skip_spaces rest); [ | discriminate ]. injection Hint as <-.
  apply binary_literal_bound in Eb.
  assert (2 ^ Z.of_nat (String.length (String c t)) <= 2 ^ 8)
    by (apply Z.pow_le_mono_r; lia).
  change (2 ^ 8) with 256 in *. lia.
Qed.

(** X14. The loop of [load] stores nothing but bytes: if every memory cell
    holds an int from 0 to 255 before (as in a fresh machine), every cell
    does after, whatever the lines of the file are and however the loop
    ends. *)
Theorem load_stores_bytes lines : forall s,
  Forall is_byte (ram s) ->
  Forall is_byte (ram (fst (load_lines lines s))).
Proof.
  induction lines as [ | line lines IH]; intros s Hs; [ exact Hs | ].
  cbn [load_lines]. unfold load_line.
  destruct (instruction_literal line) as [lit | ] eqn:El; [ | now apply IH ].
  destruct (PyStr.int2 lit) as [z | ] eqn:Ez; [ | exact Hs ].
  destruct (Py.setitem (ram s) (mar s) (VInt z)) as [cells | e] eqn:Ec; [ | exact Hs ].
  apply IH. cbn [set_mar set_ram ram].
  apply setitem_Ok in Ec as [_ ->]. apply Forall_insert; [ exact Hs | ].
  exists z. split; [ reflexivity | ]. now apply (literal_byte line lit).
Qed.

(** The theorem for [demo_file] and a fresh machine. *)
Lemma load_stores_bytes_witness :
  Forall is_byte (ram (fst (load_lines demo_file init))).
Proof.
  apply (load_stores_bytes demo_file init).
  apply Forall_forall. intros v Hv.
  apply elem_of_replicate in Hv as [-> _].
  exists 0. split; [ reflexivity | lia ].
Defined.

Lemma literal_char_cases c :
  (PyStr.is_space c = true -> literal_char c = true) /\
  (forall d, PyStr.digit2 c = Some d -> literal_char c = true) /\
  (Ascii.eqb c "_" = true -> literal_char c = true) /\
  (Ascii.eqb c "b" || Ascii.eqb c "B" = true -> literal_char c = true) /\
  (Ascii.eqb c "+" = true -> literal_char c = true) /\
  (Ascii.eqb c "-" = true -> literal_char c = true).
Proof.
  unfold literal_char. repeat split.
  - intros ->. reflexivity.
  - intros d ->. now rewrite orb_true_r.
  - intros ->. now rewrite !orb_true_r.
  - intros H. apply orb_true_iff in H as [-> | ->]; now rewrite !orb_true_r.
  - intros ->. now rewrite !orb_true_r.
  - intros ->. now rewrite !orb_true_r.
Qed.

Lemma skip_spaces_chars s :
  all_chars literal_char (PyStr.skip_spaces s) = true ->
  all_chars literal_char s = true.
Proof.
  induction s as [ | c s IH]; [ trivial | ]. cbn [PyStr.skip_spaces].
  destruct (PyStr.is_space c) eqn:E; [ | trivial ].
  intros H. cbn [all_chars]. rewrite (IH H).
  now rewrite (proj1 (literal_char_cases c) E).
Qed.

Lemma binary_digits_chars s : forall prev acc z rest,
  PyStr.binary_digits s prev acc = Some (z, rest) ->
  all_chars literal_char rest = true ->
  all_chars literal_char s = true.
Proof.
  induction s as [ | c s IH]; intros prev acc z rest H Hrest;
    cbn [PyStr.binary_digits] in H.
  - reflexivity.
  - destruct (literal_char_cases c) as (_ & Hd & Hu & _).
    destruct (Ascii.eqb c "_") eqn:Eu.
    + destruct prev; [ discriminate | ].
      cbn [all_chars]. rewrite (Hu eq_refl). now apply IH in H.
    + destruct (PyStr.digit2 c) as [d | ] eqn:Ed.
      * cbn [all_chars]. rewrite (Hd d eq_refl). now apply IH in H.
      * destruct prev; [ discriminate | ]. now injection H as _ <-.
Qed.

Lemma binary_literal_chars s z rest :
  PyStr.binary_literal s = Some (z, rest) ->
  all_chars literal_char rest = true ->
  all_chars literal_char s = true.
Proof.
  unfold PyStr.binary_literal. intros H Hrest.
  assert (Hdigits : forall s1,
            match s1 with
            | String c _ =>
                match PyStr.digit2 c with
                | Some _ => PyStr.binary_digits s1 false 0
                | None => None
                end
            | EmptyString => None
            end = Some (z, rest) ->
            all_chars literal_char s1 = true).
  { intros [ | c t]; [ discriminate | ].
    destruct (PyStr.digit2 c); [ | discriminate ].
    intros H1. now apply binary_digits_chars in H1. }
  destruct s as [ | c0 [ | c1 s']]; try (now apply Hdigits).
  destruct (Ascii.eqb c0 "0" && (Ascii.eqb c1 "b" || Ascii.eqb c1 "B")) eqn:Ep;
    [ | now apply Hdigits ].
  apply andb_true_iff in Ep as [E0 E1].
  destruct (literal_char_cases c0) as (_ & Hd & _).
  destruct (literal_char_cases c1) as (_ & _ & _ & Hb & _).
  cbn [all_chars]. rewrite (Hb E1).
  rewrite (Hd 0) by (unfold PyStr.digit2; now rewrite E0).
  cbn [andb].
  destruct s' as [ | c2 s'']; [ reflexivity | ].
  destruct (Ascii.eqb c2 "_") eqn:Eu.
  - cbn [all_chars].
    rewrite (proj1 (proj2 (proj2 (literal_char_cases c2))) Eu).
    now apply Hdigits.
  - now apply Hdigits.
Qed.

Lemma signed_literal_chars s z rest :
  PyStr.signed_literal s = Some (z, rest) ->
  all_chars literal_char rest = true ->
  all_chars literal_char s = true.
Proof.
  unfold PyStr.signed_literal. destruct s as [ | c s]; [ discriminate | ].
  destruct (literal_char_cases c) as (_ & _ & _ & _ & Hplus & Hminus).
  destruct (Ascii.eqb c "+") eqn:Ep.
  - intros H Hrest. cbn [all_chars]. rewrite (Hplus eq_refl).
    now apply binary_literal_chars in H.
  - destruct (Ascii.eqb c "-") eqn:Em.
    + destruct (PyStr.binary_literal s) as [[z' rest'] | ] eqn:Eb; [ | discriminate ].
      intros [= _ <-] Hrest. cbn [all_chars]. rewrite (Hminus eq_refl).
      now apply binary_literal_chars in Eb.
    + apply binary_literal_chars.
Qed.

(** Every character of a string [int] accepts is a binary digit, an
    underscore, a sign, the [b] of the prefix or white space. *)
Lemma int2_chars s z :
  PyStr.int2 s = Some z -> all_chars literal_char s = true.
Proof.
  unfold PyStr.int2.
  destruct (PyStr.signed_literal (PyStr.skip_spaces s)) as [[z' rest] | ] eqn:E;
    [ | discriminate ].
  destruct (PyStr.skip_spaces rest) eqn:Er; [ | discriminate ]. intros _.
  apply skip_spaces_chars. apply (signed_literal_chars _ z' rest E).
  apply skip_spaces_chars. now rewrite Er.
Qed.

(** X15. A line that starts with 0 or 1 and has, among the first 8
    characters before its comment, a character that is neither a binary
    digit nor an underscore, a sign, a [b] nor white space makes the loop of
    [load] raise ValueError for that literal: nothing of the line is stored,
    [mar] stays, and the lines after it are not read. *)
Theorem foreign_character_line line lit lines s :
  instruction_literal line = Some lit ->
  all_chars literal_char lit = false ->
  load_lines (line :: lines) s = (s, Some (ValueError lit)).
Proof.
  intros Hlit Hch. cbn [load_lines]. unfold load_line. rewrite Hlit.
  destruct (PyStr.int2 lit) as [z | ] eqn:Ez; [ | reflexivity ].
  apply int2_chars in Ez. congruence.
Qed.

(** The theorem for a line where a letter O stands for a zero. *)
Lemma foreign_character_line_witness :
  load_lines ["10000O10 # LDI"%string; "00000001"%string] init
  = (init, Some (ValueError "10000O10")).
Proof.
  apply (foreign_character_line "10000O10 # LDI" "10000O10" ["00000001"%string] init).
  - reflexivity.
  - reflexivity.
Defined.

(** ** The trace line, in full *)

Lemma ints_or_float (l : list value) :
  (exists rs, l = map VInt rs) \/ (exists k f, l !! k = Some (VFloat f)).
Proof.
  induction l as [ | v l IH].
  - left. now exists [].
  - destruct v as [z | f]; [ | right; now exists 0%nat, f ].
    destruct IH as [[rs ->] | (k & f & Hk)].
    + left. now exists (z :: rs).
    + right. now exists (S k), f.
Qed.

Lemma trace_loop_outcome idxs : forall s,
  match snd (for_each idxs (fun i =>
               bind (gets reg) (fun regs =>
                 bind (lift (Py.getitem regs i)) (fun v =>
                   bind (lift (Py.hex_arg v)) (fun x => print (OutReg x))))) s) with
  | Ok _ => True
  | Raise e => e = TypeError \/ e = IndexError
  end.
Proof.
  induction idxs as [ | i0 idxs IH]; intros s.
  - exact I.
  - cbn [for_each]. unfold bind at 1.
    destruct (Py.getitem (reg s) i0) as [[r | g] | e0] eqn:E0.
    + rewrite (trace_reg_eq s i0 r E0). apply IH.
    + unfold bind, gets, lift. rewrite E0. now left.
    + unfold bind, gets, lift. rewrite E0. apply getitem_Raise in E0 as ->.
      now right.
Qed.

(** [trace] returns, or raises TypeError or IndexError; when it returns, the
    three cells it read hold ints. *)
Lemma trace_outcome s :
  match snd (trace s) with
  | Ok _ =>
      exists x0 x1 x2,
        Py.getitem (ram s) (pc s) = Ok (VInt x0) /\
        Py.getitem (ram s) (pc s + 1) = Ok (VInt x1) /\
        Py.getitem (ram s) (pc s + 2) = Ok (VInt x2)
  | Raise e => e = TypeError \/ e = IndexError
  end.
Proof.
  unfold trace.
  unfold bind at 1. unfold gets at 1.
  unfold bind at 1. rewrite ram_read_eq.
  destruct (Py.getitem (ram s) (pc s)) as [b0 | e0] eqn:E0;
    [ | apply getitem_Raise in E0 as ->; now right ].
  unfold bind at 1. unfold gets at 1.
  unfold bind at 1. rewrite ram_read_eq. cbn [set_mdr set_mar ram pc].
  destruct (Py.getitem (ram s) (pc s + 1)) as [b1 | e1] eqn:E1;
    [ | apply getitem_Raise in E1 as ->; now right ].
  unfold bind at 1. unfold gets at 1.
  unfold bind at 1. rewrite ram_read_eq. cbn [set_mdr set_mar ram pc].
  destruct (Py.getitem (ram s) (pc s + 2)) as [b2 | e2] eqn:E2;
    [ | apply getitem_Raise in E2 as ->; now right ].
  unfold bind at 1. unfold lift at 1.
  destruct b0 as [x0 | f0]; [ | now left ]. cbn [Py.hex_arg].
  unfold bind at 1. unfold lift at 1.
  destruct b1 as [x1 | f1]; [ | now left ]. cbn [Py.hex_arg].
  unfold bind at 1. unfold lift at 1.
  destruct b2 as [x2 | f2]; [ | now left ]. cbn [Py.hex_arg].
  unfold bind at 1. unfold print at 1, modify at 1.
  unfold bind at 1.
  match goal with
  | |- context [for_each ?idxs ?body ?st] =>
      pose proof (trace_loop_outcome idxs st) as Hl;
      destruct (for_each idxs body st) as [s1 [[] | e]]
  end; cbn [snd] in Hl.
  - cbn [print modify snd]. exists x0, x1, x2. repeat split.
  - exact Hl.
Qed.

(** X16. [trace] changes nothing but [mar], [mdr] and the output: memory,
    registers, PC, SP and [ir] are as they were, whether it returns or
    raises.  In a machine of 256 cells and 8 registers it returns exactly
    when the cells at PC, PC+1 and PC+2 and all registers hold ints;
    otherwise it raises TypeError (a float to format) or IndexError (PC+2
    beyond memory). *)
Theorem trace_is_diagnostic s :
  wf s ->
  core (fst (trace s)) = core s /\ ir (fst (trace s)) = ir s /\
  (snd (trace s) = Ok tt <->
   exists x0 x1 x2 rs,
     Py.getitem (ram s) (pc s) = Ok (VInt x0) /\
     Py.getitem (ram s) (pc s + 1) = Ok (VInt x1) /\
     Py.getitem (ram s) (pc s + 2) = Ok (VInt x2) /\
     reg s = map VInt rs) /\
  (snd (trace s) = Ok tt \/
   snd (trace s) = Raise TypeError \/ snd (trace s) = Raise IndexError).
Proof.
  intros Hwf. split; [ | split; [ | split ] ].
  - apply keeps_trace; reflexivity.
  - apply keeps_trace; reflexivity.
  - split.
    + intros Hok. pose proof (trace_outcome s) as Hout. rewrite Hok in Hout.
      destruct Hout as (x0 & x1 & x2 & H0 & H1 & H2).
      destruct (ints_or_float (reg s)) as [[rs Hr] | Hfl].
      * exists x0, x1, x2, rs. repeat split; assumption.
      * destruct (trace_float s Hwf Hfl) as (s' & e & Ht & _).
        rewrite Ht in Hok. discriminate Hok.
    + intros (x0 & x1 & x2 & rs & H0 & H1 & H2 & Hr).
      rewrite (trace_eq s x0 x1 x2 rs H0 H1 H2 Hr); [ reflexivity | ].
      destruct Hwf as [_ Hreg]. rewrite Hr, length_map in Hreg. exact Hreg.
  - pose proof (trace_outcome s) as Hout.
    destruct (snd (trace s)) as [[] | e]; [ now left | ].
    destruct Hout as [-> | ->]; auto.
Qed.

(** The theorem for a fresh machine. *)
Lemma trace_is_diagnostic_witness :
  core (fst (trace init)) = core init /\ ir (fst (trace init)) = ir init /\
  (snd (trace init) = Ok tt <->
   exists x0 x1 x2 rs,
     Py.getitem (ram init) (pc init) = Ok (VInt x0) /\
     Py.getitem (ram init) (pc init + 1) = Ok (VInt x1) /\
     Py.getitem (ram init) (pc init + 2) = Ok (VInt x2) /\
     reg init = map VInt rs) /\
  (snd (trace init) = Ok tt \/
   snd (trace init) = Raise TypeError \/ snd (trace init) = Raise IndexError).
Proof.
  apply (trace_is_diagnostic init). split; reflexivity.
Defined.

(** ** The stack pointer at the ends of memory *)

(** X17. The handlers check the stack pointer in no way of their own; only
    the bounds of the memory list stop them.  [handle_pop] with SP outside
    [-256, 255] raises IndexError and changes no register, SP included;
    [handle_push] of a register with SP - 1 outside [-256, 255] raises
    IndexError and writes no cell, but leaves SP decremented. *)
Theorem stack_pointer_out_of_memory s :
  wf s ->
  (sp s < -256 \/ 255 < sp s ->
   handle_pop s = (set_mar (sp s) s, Raise IndexError)) /\
  (forall v, sp s - 1 < -256 \/ 255 < sp s - 1 ->
     operand_register s s = Ok v ->
     exists s',
       handle_push s = (s', Raise IndexError) /\
       ram s' = ram s /\ reg s' = reg s /\ sp s' = sp s - 1).
Proof.
  intros [Hram Hreg]. split.
  - intros Hsp. rewrite handle_pop_eq.
    now rewrite getitem_out by (rewrite Hram; lia).
  - intros v Hsp Hop. unfold operand_register in Hop.
    rewrite handle_push_eq. cbv zeta.
    destruct (Py.getitem (ram s) (pc s + 1)) as [register | e]; [ | discriminate ].
    destruct (Py.subscript register) as [i | e]; [ | discriminate ].
    rewrite Hop, ram_write_eq. cbn [set_mdr set_mar set_sp ram].
    rewrite setitem_out by (rewrite Hram; lia).
    eexists. split; [ reflexivity | ]. repeat split.
Qed.

(** The theorem for a fresh machine whose SP has been moved to 256 (where 13
    POPs take it) and to -256. *)
Lemma stack_pointer_out_of_memory_witness :
  handle_pop (set_sp 256 init) = (set_mar (sp (set_sp 256 init)) (set_sp 256 init), Raise IndexError) /\
  (exists s',
     handle_push (set_sp (-256) init) = (s', Raise IndexError) /\
     ram s' = ram (set_sp (-256) init) /\ reg s' = reg (set_sp (-256) init) /\
     sp s' = sp (set_sp (-256) init) - 1).
Proof.
  split.
  - refine (proj1 (stack_pointer_out_of_memory (set_sp 256 init) _) _).
    + split; reflexivity.
    + right. reflexivity.
  - refine (proj2 (stack_pointer_out_of_memory (set_sp (-256) init) _) (VInt 0) _ eq_refl).
    + split; reflexivity.
    + left. reflexivity.
Defined.

(** ** The instruction register *)

(** X18. Once the fetch has succeeded, [ir] holds the instruction fetched,
    however the cycle ends: no handler and no ALU operation assigns it. *)
Theorem ir_holds_instruction s i :
  fetches s i -> ir (fst (cycle s)) = Some (VInt i).
Proof.
  intros H0. pose proof H0 as Hf. unfold fetches in Hf.
  destruct (Py.getitem (ram s) (pc s + 1)) as [oa | e1] eqn:E1;
    [ destruct (Py.getitem (ram s) (pc s + 2)) as [ob | e2] eqn:E2 | ].
  - rewrite (cycle_execute s i oa ob H0 E1 E2).
    assert (Hk : keeps ir (bind (execute i oa ob) (fun _ => advance (num_operands i)))).
    { apply keeps_bind; [ | intros _; unfold advance; keeps_method ].
      apply keeps_execute; [ keeps_method | keeps_method | ].
      intros h Hh.
      destruct (branchtable_cases i h Hh)
        as [[-> ->] | [[-> ->] | [[-> ->] | [[-> ->] | [-> ->]]]]];
        unfold handle_hlt, handle_ldi, handle_prn, handle_push, handle_pop;
        keeps_method. }
    rewrite Hk. reflexivity.
  - unfold cycle.
    unfold bind at 1. unfold gets at 1.
    unfold bind at 1. rewrite ram_read_eq, Hf.
    unfold bind at 1. unfold modify at 1.
    unfold bind at 1. unfold lift at 1. cbn [Py.rshift].
    unfold bind at 1. unfold gets at 1.
    unfold bind at 1. rewrite ram_read_eq. cbn [set_mdr set_mar set_ir ram pc]. rewrite E1.
    unfold bind at 1. unfold gets at 1.
    unfold bind at 1. rewrite ram_read_eq. cbn [set_mdr set_mar set_ir ram pc]. rewrite E2.
    reflexivity.
  - unfold cycle.
    unfold bind at 1. unfold gets at 1.
    unfold bind at 1. rewrite ram_read_eq, Hf.
    unfold bind at 1. unfold modify at 1.
    unfold bind at 1. unfold lift at 1. cbn [Py.rshift].
    unfold bind at 1. unfold gets at 1.
    unfold bind at 1. rewrite ram_read_eq. cbn [set_mdr set_mar set_ir ram pc]. rewrite E1.
    reflexivity.
Qed.

(** The theorem for the first cycle of [LDI R0,8; HLT]. *)
Lemma ir_holds_instruction_witness :
  ir (fst (cycle (boot [LDI; 0; 8; HLT]))) = Some (VInt LDI).
Proof.
  apply (ir_holds_instruction (boot [LDI; 0; 8; HLT]) LDI). reflexivity.
Defined.
